(** * video_tracker: a shallow embedding of [src/video_tracker.py]

    The program is one class, [VideoTracker], holding a watch-history
    mapping that is loaded from and saved to [<folder>/.tracker.json].
    Its methods are embedded as computations in a state-and-exception
    monad over the tracker object and the operating system it talks to
    (file system, console, clock, process launcher).

    Conventions of the embedding:
    - a Python [str] is the [string] of its bytes in UTF-8: the
      separators and periods that the path functions look for are ASCII
      bytes, which occur in no other character's encoding;
    - [str.lower] follows the Unicode character database and is a
      parameter of the development, see [Unicode];
    - [os.path] is [posixpath], whose functions are transcribed below;
    - the JSON codec ([json.load], [json.dump]) is a parameter of the
      development, see [Json]: the decoder may raise any exception; the
      printer prints every value it is given, that is, the limits of
      the interpreter on the digits of an integer and on the depth of
      recursion are taken not to be reached while printing;
    - paths are looked up in the file system as they are written; a
      directory may list a name that leads nowhere, see [Dangling]; a
      path with a NUL character, which the system calls refuse, is
      excluded where it matters, see [no_nul];
    - [main] runs over a terminal: the lines of standard input and the
      prompts written, see [Session]. *)

From Stdlib Require Import ZArith Ascii String List Bool Lia DecimalString Sorted.
From stdpp Require Import base option list strings gmap.

Local Open Scope string_scope.
Local Open Scope Z_scope.

(** ** The [str] operations the program relies on *)

Module Str.

(** [s.rfind(c)] for a one-character [c]: the index of its last
    occurrence, or [-1]. *)
Fixpoint rfind (c : ascii) (s : string) : Z :=
  match s with
  | EmptyString => -1
  | String a r =>
      let k := rfind c r in
      if 0 <=? k then k + 1
      else if Ascii.eqb a c then 0 else -1
  end.

Fixpoint drop (n : nat) (s : string) : string :=
  match n, s with
  | O, _ => s
  | S _, EmptyString => EmptyString
  | S n', String _ r => drop n' r
  end.

Fixpoint take (n : nat) (s : string) : string :=
  match n, s with
  | O, _ => EmptyString
  | S _, EmptyString => EmptyString
  | S n', String a r => String a (take n' r)
  end.

(** [s[i:]] and [s[:i]]; the program only slices at indices [0 <= i]. *)
Definition slice_from (i : Z) (s : string) : string := drop (Z.to_nat i) s.
Definition slice_to (i : Z) (s : string) : string := take (Z.to_nat i) s.

(** [s[i:i+1]], as an optional character. *)
Definition at_index (i : Z) (s : string) : option ascii :=
  if i <? 0 then None else String.get (Z.to_nat i) s.

Definition startswith (c : ascii) (s : string) : bool :=
  match s with
  | String a _ => Ascii.eqb a c
  | EmptyString => false
  end.

Fixpoint endswith (c : ascii) (s : string) : bool :=
  match s with
  | EmptyString => false
  | String a EmptyString => Ascii.eqb a c
  | String _ r => endswith c r
  end.

(** [sep.join(parts)] *)
Fixpoint join (sep : string) (parts : list string) : string :=
  match parts with
  | [] => ""
  | [x] => x
  | x :: rest => x +:+ sep +:+ join sep rest
  end.

(** [s.split(c)] for a one-character separator: never an empty list. *)
Fixpoint split (c : ascii) (s : string) : list string :=
  match s with
  | EmptyString => [""]
  | String a r =>
      if Ascii.eqb a c then "" :: split c r
      else match split c r with
           | x :: xs => String a x :: xs
           | [] => [String a ""]
           end
  end.

End Str.

(** ** [posixpath] *)

Module posixpath.

Definition sep : ascii := "/"%char.
Definition extsep : ascii := "."%char.

Definition isabs (s : string) : bool := Str.startswith sep s.

(** [join(a, b)] with one trailing component, the only form the program uses. *)
Definition join (a b : string) : string :=
  if Str.startswith sep b then b
  else if (String.eqb a "" || Str.endswith sep a)%bool then a +:+ b
  else a +:+ String sep "" +:+ b.

Definition basename (p : string) : string :=
  let i := Str.rfind sep p + 1 in
  Str.slice_from i p.

(** The loop of [genericpath._splitext] that skips leading dots: it
    answers whether some character in [filenameIndex, dotIndex) is not
    a dot. [n] counts the indices left to visit. *)
Fixpoint has_stem (p : string) (filenameIndex : Z) (n : nat) : bool :=
  match n with
  | O => false
  | S n' =>
      match Str.at_index filenameIndex p with
      | Some c =>
          if Ascii.eqb c extsep then has_stem p (filenameIndex + 1) n' else true
      | None => true
      end
  end.

Definition splitext (p : string) : string * string :=
  let sepIndex := Str.rfind sep p in
  let dotIndex := Str.rfind extsep p in
  if sepIndex <? dotIndex then
    let filenameIndex := sepIndex + 1 in
    if has_stem p filenameIndex (Z.to_nat (dotIndex - filenameIndex))
    then (Str.slice_to dotIndex p, Str.slice_from dotIndex p)
    else (p, "")
  else (p, "").

(** The component loop of [normpath]; [new_comps] is kept reversed. *)
Fixpoint norm_comps (initial_slashes : nat) (comps : list string)
    (new_comps : list string) : list string :=
  match comps with
  | [] => rev new_comps
  | comp :: rest =>
      if (String.eqb comp "" || String.eqb comp ".")%bool then
        norm_comps initial_slashes rest new_comps
      else if (negb (String.eqb comp "..")
               || ((initial_slashes =? 0)%nat && bool_decide (new_comps = []))
               || match new_comps with
                  | last :: _ => String.eqb last ".."
                  | [] => false
                  end)%bool then
        norm_comps initial_slashes rest (comp :: new_comps)
      else
        norm_comps initial_slashes rest (tail new_comps)
  end.

Definition normpath (path : string) : string :=
  if String.eqb path "" then "."
  else
    let initial_slashes : nat :=
      if Str.startswith sep path then
        if (Str.startswith sep (Str.drop 1 path)
            && negb (Str.startswith sep (Str.drop 2 path)))%bool
        then 2%nat else 1%nat
      else 0%nat in
    let comps := norm_comps initial_slashes (Str.split sep path) [] in
    let path :=
      String.concat "" (replicate initial_slashes "/") +:+ Str.join "/" comps in
    if String.eqb path "" then "." else path.

(** [abspath(path)], given the process's working directory. *)
Definition abspath (cwd path : string) : string :=
  normpath (if isabs path then path else join cwd path).

End posixpath.

(** ** Python values and exceptions *)

(** The values [json.load] can produce and [json.dump] can print. A
    [dict] keeps its items in insertion order; its keys are distinct. A
    [float] is kept as its [repr]: the program does no arithmetic. *)
#[warnings="-register-all"]
Inductive pyval : Type :=
| PNone
| PBool (b : bool)
| PInt (n : Z)
| PFloat (repr : string)
| PStr (s : string)
| PList (xs : list pyval)
| PDict (items : list (string * pyval)).

(** [d.get(k)] on the items of a [dict]: [None] when the key is absent. *)
Fixpoint dict_get (k : string) (items : list (string * pyval)) : pyval :=
  match items with
  | [] => PNone
  | (k', v) :: rest => if String.eqb k' k then v else dict_get k rest
  end.

Definition dict_keys (items : list (string * pyval)) : list string :=
  map fst items.

(** The exception classes that can reach the program's [except] clauses
    ([IOError] is [OSError]). *)
Inductive exn_class : Type :=
| BaseException | Exception | OSError | ValueError | JSONDecodeError
| UnicodeDecodeError | AttributeError | CalledProcessError
| RuntimeError | RecursionError
| KeyboardInterrupt.

Definition base_class (c : exn_class) : option exn_class :=
  match c with
  | BaseException => None
  | Exception | KeyboardInterrupt => Some BaseException
  | OSError | ValueError | AttributeError | CalledProcessError
  | RuntimeError => Some Exception
  | JSONDecodeError | UnicodeDecodeError => Some ValueError
  | RecursionError => Some RuntimeError
  end.

Definition exn_class_eqb (c d : exn_class) : bool :=
  match c, d with
  | BaseException, BaseException | Exception, Exception | OSError, OSError
  | ValueError, ValueError | JSONDecodeError, JSONDecodeError
  | UnicodeDecodeError, UnicodeDecodeError | AttributeError, AttributeError
  | CalledProcessError, CalledProcessError
  | RuntimeError, RuntimeError | RecursionError, RecursionError
  | KeyboardInterrupt, KeyboardInterrupt => true
  | _, _ => false
  end.

(** [issubclass(c, d)]; the hierarchy is three levels deep. *)
Fixpoint issubclass_upto (depth : nat) (c d : exn_class) : bool :=
  exn_class_eqb c d ||
  match depth, base_class c with
  | S depth', Some b => issubclass_upto depth' b d
  | _, _ => false
  end.

Definition issubclass : exn_class → exn_class → bool := issubclass_upto 3.

(** A raised exception: its class and [str(e)]. *)
Record exn : Type := mkExn { exn_cls : exn_class; exn_str : string }.

Definition isinstance (e : exn) (c : exn_class) : bool :=
  issubclass (exn_cls e) c.

(** ** The JSON codec

    [json.load] and [json.dump(..., indent=4)] belong to the Python
    library; the development is parametric in them. [loads] answers the
    value decoded or the exception raised: [JSONDecodeError] for text
    that is not JSON, and whatever else the decoder raises, such as
    [RecursionError] for text nested too deep or [ValueError] for an
    integer literal too long to convert. *)
Class Json : Type := MkJson {
  loads : string → pyval + exn;
  dumps : pyval → string
}.

(** ** Case mapping

    [str.lower] belongs to the Python library as well. It is not
    limited to ASCII: the KELVIN SIGN, for one, lowers to [k]. *)
Class Unicode : Type := MkUnicode {
  lower : string → string
}.

(** ** The operating system *)

(** What a regular file holds: text, or bytes that are not text in the
    encoding [open(path, 'r')] decodes with. *)
Inductive payload : Type :=
| Text (s : string)
| Garbled.

(** What a path leads to. [Dangling] is a name that a directory lists
    and that leads nowhere, such as a symbolic link whose target is
    gone. *)
Inductive node : Type :=
| Dir
| File (readable : bool) (body : payload)
| Dangling.

(** What the process does to the outside, oldest event first. *)
Inductive event : Type :=
| Print (line : string)
| OpenW (path : string)
| Run (argv : list string)
| StartFile (path : string).

(** How an attempt to write a file fails. *)
Inductive fault : Type :=
| AtOpen (msg : string)
| AtWrite (written : nat) (msg : string).

Record World : Type := mkWorld {
  files : gmap string node;
  cwd : string;
  system : string;
  (** what [datetime.now().isoformat()] gives at the [n]-th reading *)
  clock : nat → string;
  ticks : nat;
  (** whether writing to a path fails, and how *)
  write_fault : string → option fault;
  (** what launching a player raises, if anything *)
  launch : event → option exn;
  trace : list event
}.

(** ** The tracker object and the monad of its methods *)

Record VideoTracker : Type := mkVideoTracker {
  video_folder : string;
  tracking_file : string;
  history : pyval
}.

Record Machine : Type := mkMachine { os : World; self : VideoTracker }.

Inductive result (A : Type) : Type :=
| Return (a : A)
| Raise (e : exn).
Arguments Return {A} a.
Arguments Raise {A} e.

Definition M (A : Type) : Type := Machine → result A * Machine.

#[export] Instance M_ret : MRet M := λ A a m, (Return a, m).
#[export] Instance M_bind : MBind M := λ A B f c m,
  match c m with
  | (Return a, m') => f a m'
  | (Raise e, m') => (Raise e, m')
  end.

Definition raise {A} (e : exn) : M A := λ m, (Raise e, m).

(** [try: body except <classes>: handler]: [handler e] is [None] when no
    clause matches [e], which then propagates. *)
Definition try_except {A} (body : M A) (handler : exn → option (M A)) : M A :=
  λ m,
    match body m with
    | (Return a, m') => (Return a, m')
    | (Raise e, m') =>
        match handler e with
        | Some h => h m'
        | None => (Raise e, m')
        end
    end.

Definition get_self : M VideoTracker := λ m, (Return (self m), m).
Definition get_os : M World := λ m, (Return (os m), m).
Definition put_os (w : World) : M unit := λ m, (Return tt, mkMachine w (self m)).

(** [self.history = v] *)
Definition set_history (v : pyval) : M unit := λ m,
  (Return tt,
   mkMachine (os m)
     (mkVideoTracker (video_folder (self m)) (tracking_file (self m)) v)).

Definition with_files (fs : gmap string node) (w : World) : World :=
  mkWorld fs (cwd w) (system w) (clock w) (ticks w) (write_fault w) (launch w)
    (trace w).

Definition with_event (ev : event) (w : World) : World :=
  mkWorld (files w) (cwd w) (system w) (clock w) (ticks w) (write_fault w)
    (launch w) (trace w ++ [ev]).

Definition with_tick (w : World) : World :=
  mkWorld (files w) (cwd w) (system w) (clock w) (S (ticks w)) (write_fault w)
    (launch w) (trace w).

Definition emit (ev : event) : M unit :=
  w ← get_os; put_os (with_event ev w).

Definition print (line : string) : M unit := emit (Print line).

(** Whether [path] leads to a file or a directory. *)
Definition exists_on_disk (w : World) (path : string) : bool :=
  match files w !! path with
  | Some Dir | Some (File _ _) => true
  | Some Dangling | None => false
  end.

Definition os_path_exists (path : string) : M bool :=
  w ← get_os; mret (exists_on_disk w path).

Definition datetime_now_isoformat : M string :=
  w ← get_os; put_os (with_tick w);; mret (clock w (ticks w)).

Definition platform_system : M string :=
  w ← get_os; mret (system w).

(** [open(path, 'r')]: the handle is what reading it will find. *)
Definition open_r (path : string) : M payload :=
  w ← get_os;
  match files w !! path with
  | None | Some Dangling =>
      raise (mkExn OSError ("No such file or directory: " +:+ path))
  | Some Dir => raise (mkExn OSError ("Is a directory: " +:+ path))
  | Some (File false _) => raise (mkExn OSError ("Permission denied: " +:+ path))
  | Some (File true body) => mret body
  end.

Definition readable_bit (w : World) (path : string) : bool :=
  match files w !! path with
  | Some (File r _) => r
  | _ => true
  end.

(** [open(path, 'w')]: creates or truncates the file, also where the
    name led nowhere; the handle is the path. *)
Definition open_w (path : string) : M string :=
  emit (OpenW path);;
  w ← get_os;
  match files w !! path, write_fault w path with
  | Some Dir, _ => raise (mkExn OSError ("Is a directory: " +:+ path))
  | _, Some (AtOpen msg) => raise (mkExn OSError msg)
  | _, _ =>
      put_os (with_files (<[path := File (readable_bit w path) (Text "")]> (files w)) w);;
      mret path
  end.

Definition write_text (path text : string) : M unit :=
  w ← get_os;
  put_os (with_files (<[path := File (readable_bit w path) (Text text)]> (files w)) w).

Definition subprocess_run (argv : list string) : M unit :=
  emit (Run argv);;
  w ← get_os;
  match launch w (Run argv) with
  | Some e => raise e
  | None => mret tt
  end.

Definition os_startfile (path : string) : M unit :=
  emit (StartFile path);;
  w ← get_os;
  match launch w (StartFile path) with
  | Some e => raise e
  | None => mret tt
  end.

(** The name of [p] inside directory [d], when [p] is an immediate child. *)
Fixpoint strip_prefix (pre s : string) : option string :=
  match pre, s with
  | EmptyString, _ => Some s
  | String a pre', String b s' => if Ascii.eqb a b then strip_prefix pre' s' else None
  | String _ _, EmptyString => None
  end.

Definition child_name (d p : string) : option string :=
  let d := if Str.endswith posixpath.sep d then d else d +:+ "/" in
  match strip_prefix d p with
  | Some name =>
      if (String.eqb name "" || (0 <=? Str.rfind posixpath.sep name))%bool
      then None else Some name
  | None => None
  end.

(** The names in directory [path], in the order the file system yields them. *)
Definition dir_listing (w : World) (path : string) : list string :=
  omap (λ kv, child_name path kv.1) (map_to_list (files w)).

(** [os.listdir(path)] *)
Definition os_listdir (path : string) : M (list string) :=
  w ← get_os;
  match files w !! path with
  | Some Dir => mret (dir_listing w path)
  | Some (File _ _) => raise (mkExn OSError ("Not a directory: " +:+ path))
  | Some Dangling | None =>
      raise (mkExn OSError ("No such file or directory: " +:+ path))
  end.

(** ** The class [VideoTracker] *)

Section VideoTracker.

Context `{Json} `{Unicode}.

(** [json.load(f)]: reads the whole file, then decodes it. *)
Definition json_load (f : payload) : M pyval :=
  match f with
  | Garbled => raise (mkExn UnicodeDecodeError "invalid start byte")
  | Text s =>
      match loads s with
      | inl v => mret v
      | inr e => raise e
      end
  end.

(** [json.dump(obj, f, indent=4)]: the text is written whole, or as far
    as the fault of the write lets it. *)
Definition json_dump (obj : pyval) (f : string) : M unit :=
  w ← get_os;
  match write_fault w f with
  | Some (AtWrite n msg) =>
      write_text f (Str.take n (dumps obj));;
      raise (mkExn OSError msg)
  | _ => write_text f (dumps obj)
  end.

Definition load_history : M pyval :=
  self ← get_self;
  found ← os_path_exists (tracking_file self);
  if found : bool then
    try_except
      (f ← open_r (tracking_file self);
       json_load f)
      (λ e, if (isinstance e JSONDecodeError || isinstance e OSError)%bool
            then Some (mret (PDict []))
            else None)
  else mret (PDict []).

Definition save_history : M unit :=
  try_except
    (self ← get_self;
     f ← open_w (tracking_file self);
     json_dump (history self) f)
    (λ e, if isinstance e OSError
          then Some (print ("Error saving tracking file: " +:+ exn_str e))
          else None).

(** [VideoTracker(video_folder)]. While [load_history] runs the
    attribute [history] is not assigned yet; [PNone] stands for that. *)
Definition __init__ (folder : string) (w : World) : result VideoTracker * World :=
  let video_folder := posixpath.abspath (cwd w) folder in
  let tracking_file := posixpath.join video_folder ".tracker.json" in
  let this := mkVideoTracker video_folder tracking_file PNone in
  match load_history (mkMachine w this) with
  | (Return h, m) => (Return (mkVideoTracker video_folder tracking_file h), os m)
  | (Raise e, m) => (Raise e, os m)
  end.

Definition is_None (v : pyval) : bool :=
  match v with PNone => true | _ => false end.

(** [track_video(video_file, timestamp=None, watched_percentage=0)] *)
Definition track_video (video_file : string) (timestamp : pyval)
    (watched_percentage : pyval) : M unit :=
  self ← get_self;
  let video_file :=
    if negb (posixpath.isabs video_file)
    then posixpath.join (video_folder self) video_file
    else video_file in
  found ← os_path_exists video_file;
  if negb found : bool then
    print ("File not found: " +:+ video_file)
  else
    timestamp ← (if is_None timestamp
                 then now ← datetime_now_isoformat; mret (PStr now)
                 else mret timestamp);
    set_history
      (PDict [(posixpath.basename video_file,
               PDict [("last_watched", timestamp);
                      ("watched_percentage", watched_percentage);
                      ("full_path", PStr video_file)])]);;
    save_history.

(** Truth value of the optional argument of [get_last_watched]: [None]
    and the empty string are false. *)
Definition truthy (video_file : option string) : bool :=
  match video_file with
  | Some s => negb (String.eqb s "")
  | None => false
  end.

(** [obj.get(key)]: only a [dict] has the method. *)
Definition method_get (obj : pyval) (key : string) : M pyval :=
  match obj with
  | PDict items => mret (dict_get key items)
  | _ => raise (mkExn AttributeError "object has no attribute 'get'")
  end.

(** [get_last_watched(video_file=None)] *)
Definition get_last_watched (video_file : option string) : M pyval :=
  self ← get_self;
  if truthy video_file then
    let video_file := posixpath.basename (default "" video_file) in
    method_get (history self) video_file
  else mret (history self).

Definition play_video (video_file : string) : M unit :=
  self ← get_self;
  let video_file :=
    if negb (posixpath.isabs video_file)
    then posixpath.join (video_folder self) video_file
    else video_file in
  system ← platform_system;
  try_except
    (if String.eqb system "Darwin" then subprocess_run ["open"; video_file]
     else if String.eqb system "Windows" then os_startfile video_file
     else if String.eqb system "Linux" then subprocess_run ["xdg-open"; video_file]
     else print ("Unsupported operating system: " +:+ system))
    (λ e, if isinstance e Exception
          then Some (print ("Error playing video: " +:+ exn_str e))
          else None);;
  track_video video_file PNone (PInt 0).

Definition video_extensions : list string :=
  [".mp4"; ".avi"; ".mkv"; ".mov"; ".wmv"].

(** [x in xs] for a list of strings *)
Definition contains (xs : list string) (x : string) : bool :=
  existsb (String.eqb x) xs.

Definition is_video (f : string) : bool :=
  contains video_extensions (lower (posixpath.splitext f).2).

Definition list_videos : M (list string) :=
  self ← get_self;
  names ← os_listdir (video_folder self);
  mret (List.filter is_video names).

End VideoTracker.

(** ** A sample codec

    A printer that follows [json.dumps(obj, indent=4)] and a decoder for
    the fragment of JSON without fractional numbers and without [\u]
    escapes. The theorems below hold for every codec; this one lets the
    examples read and write real files. *)

Module json.

Definition hex_digit (n : N) : ascii :=
  ascii_of_N (if (n <? 10)%N then 48 + n else 87 + n).

(** One character of [py_encode_basestring_ascii]. *)
Definition escape_char (c : ascii) : string :=
  let n := N_of_ascii c in
  if (n =? 34)%N then String "\"%char (String "034"%char "")
  else if (n =? 92)%N then "\\"
  else if ((32 <=? n) && (n <=? 126))%N then String c ""
  else if (n =? 10)%N then "\n"
  else if (n =? 13)%N then "\r"
  else if (n =? 9)%N then "\t"
  else if (n =? 8)%N then "\b"
  else if (n =? 12)%N then "\f"
  else "\u00" +:+ String (hex_digit (n / 16)) (String (hex_digit (n mod 16)) "").

Fixpoint escape (s : string) : string :=
  match s with
  | EmptyString => ""
  | String c r => escape_char c +:+ escape r
  end.

Definition encode_str (s : string) : string :=
  String "034"%char (escape s) +:+ String "034"%char "".

Definition encode_int (n : Z) : string :=
  DecimalString.NilZero.string_of_int (Z.to_int n).

Definition newline_indent (level : nat) : string :=
  String "010"%char (String.concat "" (replicate level "    ")).

Fixpoint encode (level : nat) (v : pyval) : string :=
  match v with
  | PNone => "null"
  | PBool true => "true"
  | PBool false => "false"
  | PInt n => encode_int n
  | PFloat repr => repr
  | PStr s => encode_str s
  | PList [] => "[]"
  | PList xs =>
      "[" +:+ newline_indent (S level)
      +:+ Str.join ("," +:+ newline_indent (S level)) (map (encode (S level)) xs)
      +:+ newline_indent level +:+ "]"
  | PDict [] => "{}"
  | PDict items =>
      "{" +:+ newline_indent (S level)
      +:+ Str.join ("," +:+ newline_indent (S level))
            (map (λ kv, encode_str (fst kv) +:+ ": " +:+ encode (S level) (snd kv)) items)
      +:+ newline_indent level +:+ "}"
  end.

Definition dumps (obj : pyval) : string := encode 0 obj.

Definition is_ws (c : ascii) : bool :=
  let n := N_of_ascii c in
  ((n =? 32) || (n =? 9) || (n =? 10) || (n =? 13))%N.

Fixpoint skip_ws (s : string) : string :=
  match s with
  | String c r => if is_ws c then skip_ws r else s
  | EmptyString => s
  end.

Definition is_digit (c : ascii) : bool :=
  let n := N_of_ascii c in ((48 <=? n) && (n <=? 57))%N.

Fixpoint scan_digits (acc : Z) (s : string) : Z * string :=
  match s with
  | String c r =>
      if is_digit c
      then scan_digits (10 * acc + Z.of_N (N_of_ascii c) - 48) r
      else (acc, s)
  | EmptyString => (acc, s)
  end.

(** An integer literal; [None] when a fraction or exponent follows. *)
Definition scan_int (s : string) : option (Z * string) :=
  let (sign, body) :=
    match s with
    | String "-"%char r => (-1, r)
    | _ => (1, s)
    end in
  match body with
  | String c r =>
      if is_digit c then
        let (n, rest) :=
          if Ascii.eqb c "0" then (0, r) else scan_digits 0 body in
        match rest with
        | String "."%char _ | String "e"%char _ | String "E"%char _ => None
        | _ => Some (sign * n, rest)
        end
      else None
  | EmptyString => None
  end.

Definition unescape (c : ascii) : option ascii :=
  let n := N_of_ascii c in
  if (n =? 34)%N then Some c
  else if (n =? 92)%N then Some c
  else if (n =? 47)%N then Some c
  else if (n =? 98)%N then Some "008"%char
  else if (n =? 102)%N then Some "012"%char
  else if (n =? 110)%N then Some "010"%char
  else if (n =? 114)%N then Some "013"%char
  else if (n =? 116)%N then Some "009"%char
  else None.

(** The characters of a string literal after its opening quote. *)
Fixpoint scan_string (s : string) : option (string * string) :=
  match s with
  | EmptyString => None
  | String c r =>
      let n := N_of_ascii c in
      if (n =? 34)%N then Some ("", r)
      else if (n =? 92)%N then
        match r with
        | String e r' =>
            match unescape e, scan_string r' with
            | Some ch, Some (body, rest) => Some (String ch body, rest)
            | _, _ => None
            end
        | EmptyString => None
        end
      else if (n <? 32)%N then None
      else
        match scan_string r with
        | Some (body, rest) => Some (String c body, rest)
        | None => None
        end
  end.

(** [d[k] = v]: a repeated key keeps its place and takes the new value. *)
Fixpoint dict_set (k : string) (v : pyval) (items : list (string * pyval))
    : list (string * pyval) :=
  match items with
  | [] => [(k, v)]
  | (k', v') :: rest =>
      if String.eqb k' k then (k', v) :: rest else (k', v') :: dict_set k v rest
  end.

Fixpoint parse_value (fuel : nat) (s : string) {struct fuel}
    : option (pyval * string) :=
  match fuel with
  | O => None
  | S fuel' =>
      match skip_ws s with
      | String "n"%char _ as t => pair PNone <$> strip_prefix "null" t
      | String "t"%char _ as t => pair (PBool true) <$> strip_prefix "true" t
      | String "f"%char _ as t => pair (PBool false) <$> strip_prefix "false" t
      | String "034"%char r =>
          match scan_string r with
          | Some (body, rest) => Some (PStr body, rest)
          | None => None
          end
      | String "["%char r =>
          match skip_ws r with
          | String "]"%char rest => Some (PList [], rest)
          | r' => parse_elements fuel' r' []
          end
      | String "{"%char r =>
          match skip_ws r with
          | String "}"%char rest => Some (PDict [], rest)
          | r' => parse_members fuel' r' []
          end
      | t =>
          match scan_int t with
          | Some (n, rest) => Some (PInt n, rest)
          | None => None
          end
      end
  end
with parse_elements (fuel : nat) (s : string) (acc : list pyval) {struct fuel}
    : option (pyval * string) :=
  match fuel with
  | O => None
  | S fuel' =>
      match parse_value fuel' s with
      | Some (v, rest) =>
          match skip_ws rest with
          | String ","%char rest' => parse_elements fuel' rest' (acc ++ [v])
          | String "]"%char rest' => Some (PList (acc ++ [v]), rest')
          | _ => None
          end
      | None => None
      end
  end
with parse_members (fuel : nat) (s : string) (acc : list (string * pyval))
    {struct fuel} : option (pyval * string) :=
  match fuel with
  | O => None
  | S fuel' =>
      match skip_ws s with
      | String "034"%char r =>
          match scan_string r with
          | Some (key, rest) =>
              match skip_ws rest with
              | String ":"%char rest' =>
                  match parse_value fuel' rest' with
                  | Some (v, rest'') =>
                      match skip_ws rest'' with
                      | String ","%char t => parse_members fuel' t (dict_set key v acc)
                      | String "}"%char t => Some (PDict (dict_set key v acc), t)
                      | _ => None
                      end
                  | None => None
                  end
              | _ => None
              end
          | None => None
          end
      | _ => None
      end
  end.

Definition invalid : exn := mkExn JSONDecodeError "Expecting value".

Definition loads (s : string) : pyval + exn :=
  match parse_value (2 * String.length s + 2) s with
  | Some (v, rest) => if String.eqb (skip_ws rest) "" then inl v else inr invalid
  | None => inr invalid
  end.

Definition codec : Json := MkJson loads dumps.

End json.

(** ** Vocabulary of the statements *)

(** The path [track_video] and [play_video] work on: the argument when it
    is absolute, else the tracked folder joined with it. *)
Definition resolved (self : VideoTracker) (video_file : string) : string :=
  if posixpath.isabs video_file then video_file
  else posixpath.join (video_folder self) video_file.

(** The record [track_video] stores. *)
Definition watch_record (timestamp watched_percentage : pyval) (full_path : string)
    : pyval :=
  PDict [("last_watched", timestamp);
         ("watched_percentage", watched_percentage);
         ("full_path", PStr full_path)].

(** The timestamp a call of [track_video] records in world [w]. *)
Definition stamp (w : World) (timestamp : pyval) : pyval :=
  match timestamp with
  | PNone => PStr (clock w (ticks w))
  | _ => timestamp
  end.

(** The [OSError] message of an attempt to write [path], if it fails. *)
Definition write_error (w : World) (path : string) : option string :=
  match files w !! path, write_fault w path with
  | Some Dir, _ => Some ("Is a directory: " +:+ path)
  | _, Some (AtOpen msg) => Some msg
  | _, Some (AtWrite _ msg) => Some msg
  | _, None => None
  end.

Definition with_events (evs : list event) (w : World) : World :=
  mkWorld (files w) (cwd w) (system w) (clock w) (ticks w) (write_fault w)
    (launch w) (trace w ++ evs).

(** The exceptions that [load_history] turns into an empty history. *)
Definition caught_by_load (e : exn) : bool :=
  isinstance e JSONDecodeError || isinstance e OSError.

(** The conditions under which [load_history] finds no history: the
    path leads nowhere, the file cannot be opened for reading, or the
    decoder refuses its text with an exception that is caught. *)
Inductive no_history `{Json} (w : World) (path : string) : Prop :=
| history_missing :
    exists_on_disk w path = false → no_history w path
| history_unreadable_dir :
    files w !! path = Some Dir → no_history w path
| history_unreadable_file body :
    files w !! path = Some (File false body) → no_history w path
| history_invalid_json text e :
    files w !! path = Some (File true (Text text)) →
    loads text = inr e → caught_by_load e = true → no_history w path.

(** The conditions under which an exception of class [c] leaves
    [load_history]: the file opens and its bytes are not text, or the
    decoder raises an exception that is not caught. *)
Inductive load_escapes `{Json} (w : World) (path : string) : exn_class → Prop :=
| escapes_undecodable :
    files w !! path = Some (File true Garbled) →
    load_escapes w path UnicodeDecodeError
| escapes_decoder text e :
    files w !! path = Some (File true (Text text)) →
    loads text = inr e → caught_by_load e = false →
    load_escapes w path (exn_cls e).

(** ASCII text, and its lower-case form: the letters A to Z lowered,
    nothing else changed. *)
Definition is_ascii (s : string) : bool :=
  forallb (λ c, (N_of_ascii c <? 128)%N) (list_ascii_of_string s).

Definition is_upper (c : ascii) : bool :=
  let n := N_of_ascii c in ((65 <=? n) && (n <=? 90))%N.

Definition lower_char (c : ascii) : ascii :=
  if is_upper c then ascii_of_N (N_of_ascii c + 32) else c.

Fixpoint ascii_lower (s : string) : string :=
  match s with
  | EmptyString => EmptyString
  | String a r => String (lower_char a) (ascii_lower r)
  end.

(** What [str.lower] does on ASCII text. *)
Definition lowers_ascii `{Unicode} : Prop :=
  ∀ s, is_ascii s = true → lower s = ascii_lower s.

(** Case-insensitive comparison as the specification words it: two
    characters agree when they are equal or are the upper-case and the
    lower-case form of one ASCII letter. *)
Definition same_letter (c d : ascii) : bool :=
  let x := N_of_ascii c in
  let y := N_of_ascii d in
  ((x =? y)
   || ((65 <=? x) && (x <=? 90) && (y =? x + 32))
   || ((65 <=? y) && (y <=? 90) && (x =? y + 32)))%N.

Fixpoint caseless_eqb (s t : string) : bool :=
  match s, t with
  | EmptyString, EmptyString => true
  | String c s', String d t' => same_letter c d && caseless_eqb s' t'
  | _, _ => false
  end.

(** The allow-list of the specification, and membership in it up to case. *)
Definition allowed_extensions : list string :=
  [".mp4"; ".avi"; ".mkv"; ".mov"; ".wmv"].

(** A string made of periods only, the empty string included. *)
Fixpoint all_dots (s : string) : bool :=
  match s with
  | EmptyString => true
  | String c r => Ascii.eqb c "." && all_dots r
  end.

Definition no_period (s : string) : bool :=
  forallb (λ c, negb (Ascii.eqb c ".")) (list_ascii_of_string s).

(** The extension of a file name, as the specification uses the word:
    what starts at the last period of the name, when some character
    before that period is not a period; the empty string when the name
    cannot be cut that way. *)
Definition extension_of (name ext : string) : Prop :=
  (∃ stem rest,
      name = stem +:+ String "." rest ∧ all_dots stem = false
      ∧ no_period rest = true ∧ ext = String "." rest)
  ∨ (ext = ""
     ∧ ∀ stem rest, name = stem +:+ String "." rest → no_period rest = true →
                    all_dots stem = true).

Definition no_upper (s : string) : bool :=
  forallb (λ c, negb (is_upper c)) (list_ascii_of_string s).

(** What [play_video] asks the host to do for a path, by platform. *)
Definition launch_event (system path : string) : option event :=
  if String.eqb system "Darwin" then Some (Run ["open"; path])
  else if String.eqb system "Windows" then Some (StartFile path)
  else if String.eqb system "Linux" then Some (Run ["xdg-open"; path])
  else None.

(** The events of a playback attempt: the launch, and the report of its
    failure or of an unsupported platform. *)
Definition playback_events (w : World) (path : string) : list event :=
  match launch_event (system w) path with
  | Some ev =>
      ev :: match launch w ev with
            | Some e => [Print ("Error playing video: " +:+ exn_str e)]
            | None => []
            end
  | None => [Print ("Unsupported operating system: " +:+ system w)]
  end.

(** The launch, on this platform and for this path, raises nothing that
    is not an [Exception] (a [KeyboardInterrupt] is not one). *)
Definition launch_raises_only_exceptions (w : World) (path : string) : Prop :=
  ∀ ev e, launch_event (system w) path = Some ev → launch w ev = Some e →
          isinstance e Exception = true.

(** ** A sample folder *)

Module demo.

Definition folder : gmap string node :=
  list_to_map
    [("/videos", Dir);
     ("/videos/ep1.mp4", File true Garbled);
     ("/videos/ep2.MKV", File true Garbled);
     ("/videos/notes.txt", File true (Text "to watch"));
     ("/videos/season2", Dir);
     ("/videos/season2/ep3.mp4", File true Garbled)].

Definition iso (n : nat) : string :=
  "2024-01-01T12:00:0" +:+ json.encode_int (Z.of_nat n).

Definition host (system : string) (launch : event → option exn)
    (fs : gmap string node) : World :=
  mkWorld fs "/home/user" system iso 0 (λ _, None) launch [].

Definition world : gmap string node → World := host "Linux" (λ _, None).

Definition tracker (h : pyval) : VideoTracker :=
  mkVideoTracker "/videos" "/videos/.tracker.json" h.

Definition machine (h : pyval) : Machine := mkMachine (world folder) (tracker h).

(** A machine whose history file is the node [n]. *)
Definition with_history_file (n : node) : Machine :=
  mkMachine (world (<["/videos/.tracker.json" := n]> folder)) (tracker PNone).

Definition two_entries : pyval :=
  PDict [("ep2.MKV", watch_record (PStr "2023-12-31T09:00:00") (PInt 40) "/videos/ep2.MKV");
         ("old.avi", watch_record (PStr "2023-12-30T09:00:00") (PInt 100) "/videos/old.avi")].

Definition player_fails (_ : event) : option exn :=
  Some (mkExn CalledProcessError "Command returned non-zero exit status 1.").

Definition interrupted (_ : event) : option exn :=
  Some (mkExn KeyboardInterrupt "").

End demo.

(** ** Vocabulary of the further properties *)

(** A path that the system calls accept: no NUL character. *)
Definition no_nul (path : string) : bool :=
  forallb (λ c, negb (Ascii.eqb c "000")) (list_ascii_of_string path).

(** An event that starts a player. *)
Definition is_launch (ev : event) : bool :=
  match ev with
  | Run _ | StartFile _ => true
  | Print _ | OpenW _ => false
  end.

(** An event that opens a file for writing. *)
Definition is_write (ev : event) : bool :=
  match ev with
  | OpenW _ => true
  | Print _ | Run _ | StartFile _ => false
  end.

(** The history file sits in the tracked folder, as [__init__] puts it. *)
Definition anchored (t : VideoTracker) : Prop :=
  tracking_file t = posixpath.join (video_folder t) ".tracker.json".

Definition is_dict (v : pyval) : bool :=
  match v with
  | PDict _ => true
  | _ => false
  end.

(** What the tracked folder holds after an attempt to write [text] to
    [path]: nothing new when the open fails, a prefix when the write
    fails, the text otherwise. *)
Definition files_after_write (w : World) (path text : string) : gmap string node :=
  match files w !! path, write_fault w path with
  | Some Dir, _ => files w
  | _, Some (AtOpen _) => files w
  | _, Some (AtWrite n _) =>
      <[path := File (readable_bit w path) (Text (Str.take n text))]> (files w)
  | _, None => <[path := File (readable_bit w path) (Text text)]> (files w)
  end.

(** The write fails before the file is touched. *)
Definition open_fails (w : World) (path : string) : bool :=
  match files w !! path, write_fault w path with
  | Some Dir, _ => true
  | _, Some (AtOpen _) => true
  | _, _ => false
  end.

Definition is_letter (c : ascii) : bool :=
  let n := N_of_ascii c in
  (((65 <=? n) && (n <=? 90)) || ((97 <=? n) && (n <=? 122)))%N.

(** ** The entry point [main]

    [main] talks to a terminal: [input] writes a prompt and reads a
    line. Standard input is the list of the lines still unread; a prompt
    is kept with the number of events that came before it. [EOFError],
    which [input] raises when no line is left, is no class of the
    methods' exceptions and gets a result of its own. *)

(** The builtins [main] uses besides the codec: [int(s)] on a string,
    [None] where Python raises [ValueError], and
    [json.dumps(obj, indent=2)]. *)
Class Builtins : Type := MkBuiltins {
  py_int : string → option Z;
  dumps_indent2 : pyval → string
}.

(** [str(n)] *)
Definition str_of_int (n : Z) : string :=
  DecimalString.NilZero.string_of_int (Z.to_int n).

(** The truth value of a Python value. *)
Definition truth (v : pyval) : bool :=
  match v with
  | PNone => false
  | PBool b => b
  | PInt n => negb (n =? 0)
  | PFloat repr => negb (String.eqb repr "0.0" || String.eqb repr "-0.0")
  | PStr s => negb (String.eqb s "")
  | PList xs => negb (bool_decide (xs = []))
  | PDict items =>
      match items with
      | [] => false
      | _ :: _ => true
      end
  end.

(** [list.sort()] on strings: the ascending arrangement, which is unique. *)
Fixpoint insert_sorted (x : string) (l : list string) : list string :=
  match l with
  | [] => [x]
  | y :: rest => if String.leb x y then x :: l else y :: insert_sorted x rest
  end.

Definition sort (l : list string) : list string := foldr insert_sorted [] l.

Inductive raised : Type :=
| Uncaught (e : exn)
| EOFError.

Inductive ended (A : Type) : Type :=
| Done (a : A)
| Failed (r : raised).
Arguments Done {A} a.
Arguments Failed {A} r.

Record Session : Type := mkSession {
  asked : list (nat * string);
  machine : Machine
}.

Definition Prog (A : Type) : Type := Session → ended A * Session.

#[export] Instance Prog_ret : MRet Prog := λ A a s, (Done a, s).
#[export] Instance Prog_bind : MBind Prog := λ A B f c s,
  match c s with
  | (Done a, s') => f a s'
  | (Failed r, s') => (Failed r, s')
  end.

(** A method call from [main]. *)
Definition lift {A} (c : M A) : Prog A := λ s,
  match c (machine s) with
  | (Return a, m') => (Done a, mkSession (asked s) m')
  | (Raise e, m') => (Failed (Uncaught e), mkSession (asked s) m')
  end.

(** [input(prompt)]: the line read and the lines left. *)
Definition input (prompt : string) (lines : list string) : Prog (string * list string) :=
  λ s,
    let s' := mkSession (asked s ++ [(length (trace (os (machine s))), prompt)])
                (machine s) in
    match lines with
    | [] => (Failed EOFError, s')
    | line :: rest => (Done (line, rest), s')
    end.

(** [try: body except ValueError: handler] *)
Definition try_except_ValueError {A} (body handler : Prog A) : Prog A := λ s,
  match body s with
  | (Failed (Uncaught e), s') =>
      if isinstance e ValueError then handler s' else (Failed (Uncaught e), s')
  | other => other
  end.

Definition folder_prompt : string :=
  "Input your file path eg. C:\Users\HP\celluloid\Anime\Dan Da Dan: ".

Definition newline : string := String "010"%char "".

Definition choice_prompt : string :=
  newline +:+ "Enter the number of the episode you want to watch (or 'q' to quit): ".

(** How an iteration of the selection loop ends. *)
Inductive flow : Type := Break | Continue.

Section Main.

Context `{Json} `{Unicode} `{Builtins}.

(** [int(choice)] *)
Definition int (choice : string) : Prog Z := λ s,
  match py_int choice with
  | Some n => (Done n, s)
  | None =>
      (Failed (Uncaught (mkExn ValueError "invalid literal for int() with base 10")), s)
  end.

(** The loop [for i, video in enumerate(videos, 1)] of [main]. *)
Fixpoint print_menu (i : Z) (videos : list string) : M unit :=
  match videos with
  | [] => mret tt
  | video :: rest =>
      last_watched ← get_last_watched (Some video);
      let watched_status :=
        if truth last_watched then " (Previously Watched)" else "" in
      print (str_of_int i +:+ ". " +:+ video +:+ watched_status);;
      print_menu (i + 1) rest
  end.

(** The body of the [try] of the selection loop, after the line is read. *)
Definition select (videos : list string) (choice : string) : Prog flow :=
  if String.eqb (lower choice) "q" then mret Break
  else
    n ← int choice;
    let index := n - 1 in
    if ((0 <=? index) && (index <? Z.of_nat (length videos)))%bool then
      let selected_video := nth (Z.to_nat index) videos "" in
      lift (print (newline +:+ "Playing: " +:+ selected_video));;
      lift (play_video selected_video);;
      last_watched ← lift (get_last_watched (Some selected_video));
      lift (print (newline +:+ "Last Watched Info:"));;
      lift (print (dumps_indent2 last_watched));;
      mret Break
    else
      lift (print "Invalid selection. Please try again.");;
      mret Continue.

(** One iteration of [while True]. *)
Definition turn (videos : list string) (lines : list string) : Prog flow :=
  try_except_ValueError
    (read ← input choice_prompt lines;
     select videos read.1)
    (lift (print "Please enter a valid number or 'q'.");;
     mret Continue).

(** The selection loop; it returns the lines it did not read. *)
Fixpoint menu_loop (videos : list string) (lines : list string) : Prog (list string) :=
  match lines with
  | [] => turn videos [];; mret []
  | choice :: rest =>
      how ← turn videos (choice :: rest);
      match how with
      | Break => mret rest
      | Continue => menu_loop videos rest
      end
  end.

(** [main] once the tracker exists. *)
Definition session (lines : list string) : Prog (list string) :=
  lift (print "Contents:");;
  videos ← lift list_videos;
  let videos := sort videos in
  lift (print_menu 1 videos);;
  menu_loop videos lines.

(** How [main] leaves: its outcome with the unread lines, the prompts
    it wrote, the world, and the tracker if one was built. *)
Record Exit : Type := mkExit {
  status : ended (list string);
  prompts : list (nat * string);
  world : World;
  tracker : option VideoTracker
}.

Definition main (lines : list string) (w : World) : Exit :=
  let first := [(length (trace w), folder_prompt)] in
  match lines with
  | [] => mkExit (Failed EOFError) first w None
  | video_folder :: lines =>
      match __init__ video_folder w with
      | (Raise e, w') => mkExit (Failed (Uncaught e)) first w' None
      | (Return tracker, w') =>
          let (r, s) := session lines (mkSession first (mkMachine w' tracker)) in
          mkExit r (asked s) (os (machine s)) (Some (self (machine s)))
      end
  end.

End Main.

(** ** A sample case mapping

    The lower-casing of the ASCII letters and of the KELVIN SIGN; every
    other character is left as it is. The theorems hold for every
    [Unicode]; this one lets the examples run. *)

Module unicode.

(** KELVIN SIGN, U+212A, in UTF-8 *)
Definition kelvin : string :=
  String "226"%char (String "132"%char (String "170"%char "")).

Fixpoint lower (s : string) : string :=
  match s with
  | EmptyString => EmptyString
  | String a t =>
      match t with
      | String b (String c r) =>
          if (Ascii.eqb a "226" && Ascii.eqb b "132" && Ascii.eqb c "170")%bool
          then String "k"%char (lower r)
          else String (lower_char a) (lower t)
      | _ => String (lower_char a) (lower t)
      end
  end.

Definition sample : Unicode := MkUnicode lower.

End unicode.

(** ** Sample builtins

    [int] on ASCII decimal literals (surrounding whitespace, a sign,
    single underscores between digits) and [json.dumps] with any indent.
    The theorems hold for every [Builtins]; these let [main] run on
    examples. *)

Module builtins.

Definition is_space (c : ascii) : bool :=
  let n := N_of_ascii c in
  (((9 <=? n) && (n <=? 13)) || ((28 <=? n) && (n <=? 32))
   || (n =? 133) || (n =? 160))%N.

Fixpoint lstrip (s : string) : string :=
  match s with
  | String c r => if is_space c then lstrip r else s
  | EmptyString => s
  end.

(** The digits of a literal; [ready] says the previous character was a
    digit, so that an underscore or the end may follow. *)
Fixpoint digits (acc : Z) (ready : bool) (s : string) : option Z :=
  match s with
  | EmptyString => if ready then Some acc else None
  | String c r =>
      if json.is_digit c then digits (10 * acc + Z.of_N (N_of_ascii c) - 48) true r
      else if Ascii.eqb c "_" then (if ready then digits acc false r else None)
      else if forallb is_space (list_ascii_of_string s)
           then (if ready then Some acc else None)
           else None
  end.

Definition int (s : string) : option Z :=
  match lstrip s with
  | String "-"%char r => Z.opp <$> digits 0 false r
  | String "+"%char r => digits 0 false r
  | r => digits 0 false r
  end.

Definition newline_indent (width level : nat) : string :=
  String "010"%char (String.concat "" (replicate (width * level) " ")).

Fixpoint encode (width level : nat) (v : pyval) : string :=
  match v with
  | PNone => "null"
  | PBool true => "true"
  | PBool false => "false"
  | PInt n => json.encode_int n
  | PFloat repr => repr
  | PStr s => json.encode_str s
  | PList [] => "[]"
  | PList xs =>
      "[" +:+ newline_indent width (S level)
      +:+ Str.join ("," +:+ newline_indent width (S level))
            (map (encode width (S level)) xs)
      +:+ newline_indent width level +:+ "]"
  | PDict [] => "{}"
  | PDict items =>
      "{" +:+ newline_indent width (S level)
      +:+ Str.join ("," +:+ newline_indent width (S level))
            (map (λ kv, json.encode_str (fst kv) +:+ ": "
                        +:+ encode width (S level) (snd kv)) items)
      +:+ newline_indent width level +:+ "}"
  end.

Definition sample : Builtins := MkBuiltins int (encode 2 0).

End builtins.

(** ** Vocabulary of the statements about [main] *)

(** The session after [input] wrote a prompt. *)
Definition prompting (prompt : string) (s : Session) : Session :=
  mkSession (asked s ++ [(length (trace (os (machine s))), prompt)]) (machine s).

(** The session after [print] of each line. *)
Definition printing (lines : list string) (s : Session) : Session :=
  mkSession (asked s)
    (mkMachine (with_events (map Print lines) (os (machine s))) (self (machine s))).

(** A line of the menu that selects nothing: it does not lower to [q],
    and it is no number from 1 to the number of videos. *)
Definition rejected `{Unicode} `{Builtins} (videos : list string) (choice : string)
    : bool :=
  negb (String.eqb (lower choice) "q")
  && match py_int choice with
     | None => true
     | Some n => negb ((1 <=? n) && (n <=? Z.of_nat (length videos)))
     end.

(** What [main] answers to a rejected line. *)
Definition rejection `{Builtins} (choice : string) : string :=
  match py_int choice with
  | None => "Please enter a valid number or 'q'."
  | Some _ => "Invalid selection. Please try again."
  end.

(** The session after a run of rejected lines. *)
Fixpoint skipping `{Builtins} (bad : list string) (s : Session) : Session :=
  match bad with
  | [] => s
  | choice :: rest =>
      skipping rest (printing [rejection choice] (prompting choice_prompt s))
  end.

(** The lines of the menu for a history with these items. *)
Fixpoint menu_lines (i : Z) (videos : list string) (items : list (string * pyval))
    : list string :=
  match videos with
  | [] => []
  | video :: rest =>
      (str_of_int i +:+ ". " +:+ video
       +:+ (if truth (dict_get video items) then " (Previously Watched)" else ""))
      :: menu_lines (i + 1) rest items
  end.

(** A name as a listing has them: not empty, no separator. *)
Definition plain_name (name : string) : Prop :=
  name ≠ "" ∧ Str.rfind posixpath.sep name = -1.

(** The launches among some events. *)
Definition launches (evs : list event) : list event := List.filter is_launch evs.

(** The openings for writing among some events. *)
Definition writes (evs : list event) : list event := List.filter is_write evs.

(** Only a directory holds entries: a path beneath [d] leads somewhere
    only if [d] is a directory. *)
Definition only_directories_hold (w : World) (d : string) : Prop :=
  ∀ name, posixpath.isabs name = false →
          exists_on_disk w (posixpath.join d name) = true →
          files w !! d = Some Dir.

(** [main] gets as far as the menu: the constructor returns the tracker
    [t], whose history is a mapping with these items, and [list_videos]
    returns [found]. *)
Definition opens `{Json} `{Unicode} (folder : string) (w : World) (t : VideoTracker)
    (items : list (string * pyval)) (found : list string) : Prop :=
  posixpath.isabs (cwd w) = true
  ∧ __init__ folder w = (Return t, w)
  ∧ history t = PDict items
  ∧ list_videos (mkMachine w t) = (Return found, mkMachine w t).

(** The record [play_video] leaves for a path in world [w]. *)
Definition played_record (w : World) (full_path : string) : pyval :=
  watch_record (PStr (clock w (ticks w))) (PInt 0) full_path.

Definition option_list {A} (o : option A) : list A :=
  match o with
  | Some a => [a]
  | None => []
  end.



(** ** More sample worlds *)

Module demo2.

(** The sample folder where the history file cannot be opened for writing. *)
Definition read_only : World :=
  mkWorld demo.folder "/home/user" "Linux" demo.iso 0
    (λ path, if String.eqb path "/videos/.tracker.json"
             then Some (AtOpen "[Errno 13] Permission denied")
             else None)
    (λ _, None) [].

Definition started (w : World) : Machine := mkMachine w (demo.tracker (PDict [])).

(** The sample folder with hidden and unrelated names beside the videos. *)
Definition crowded : gmap string node :=
  <["/videos/.mp4" := File true Garbled]>
    (<["/videos/..mkv" := File true Garbled]>
       (<["/videos/clip.mp4.txt" := File true Garbled]>
          (<["/videos/b.Avi" := File true Garbled]> demo.folder))).

(** The crowded folder with a name in which the KELVIN SIGN stands for
    the letter k, and a name that leads nowhere. *)
Definition mixed : gmap string node :=
  <["/videos/a.m" +:+ unicode.kelvin +:+ "v" := File true Garbled]>
    (<["/videos/gone.mov" := Dangling]> crowded).

(** A decoder that gives up on text that opens more than [limit]
    arrays in a row, as the decoder of CPython does at its recursion
    limit. *)
Definition limit : nat := 1000.

Definition too_deep : exn :=
  mkExn RecursionError "maximum recursion depth exceeded while decoding a JSON array".

Fixpoint opening (s : string) : nat :=
  match s with
  | String "["%char r => Datatypes.S (opening r)
  | _ => 0%nat
  end.

Definition bounded : Json :=
  MkJson (λ s, if (limit <? opening s)%nat then inr too_deep else json.loads s)
    json.dumps.

Definition brackets : string := String.concat "" (replicate 2000 "[").

(** The lines typed at the menu in the examples. *)
Definition typos : list string := ["x"; "7"; "0"; ""].

End demo2.

(** Unfolds the monad of [main] and its calls into the methods. *)
Ltac step :=
  cbv [mbind Prog_bind mret Prog_ret lift input try_except_ValueError int
       M_bind M_ret print emit get_os put_os].

(** ** Proof automation *)

(** Unfolds the monad and the system calls, leaving the methods' own
    control flow. *)
Ltac run :=
  cbv [mbind M_bind mret M_ret get_self get_os put_os os_path_exists print
       emit set_history raise try_except datetime_now_isoformat
       platform_system open_r open_w write_text subprocess_run os_startfile
       json_load json_dump os_listdir].

(** * Properties *)

(** ** [posixpath] on examples *)

Example basename_abs : posixpath.basename "/abs/path/to/video.mp4" = "video.mp4".
Proof. reflexivity. Qed.
Example basename_dir : posixpath.basename "/abs/path/" = "".
Proof. reflexivity. Qed.
Example basename_bare : posixpath.basename "video.mp4" = "video.mp4".
Proof. reflexivity. Qed.
Example splitext_plain : posixpath.splitext "ep1.MP4" = ("ep1", ".MP4").
Proof. reflexivity. Qed.
Example splitext_hidden : posixpath.splitext ".mp4" = (".mp4", "").
Proof. reflexivity. Qed.
Example splitext_dots : posixpath.splitext "..mp4" = ("..mp4", "").
Proof. reflexivity. Qed.
Example splitext_two : posixpath.splitext "a.tar.mkv" = ("a.tar", ".mkv").
Proof. reflexivity. Qed.
Example splitext_none : posixpath.splitext "notes" = ("notes", "").
Proof. reflexivity. Qed.
Example splitext_dir : posixpath.splitext "a.b/c" = ("a.b/c", "").
Proof. reflexivity. Qed.
Example join_rel : posixpath.join "/v" "a.mp4" = "/v/a.mp4".
Proof. reflexivity. Qed.
Example join_abs : posixpath.join "/v" "/w/a.mp4" = "/w/a.mp4".
Proof. reflexivity. Qed.
Example join_slash : posixpath.join "/v/" "a.mp4" = "/v/a.mp4".
Proof. reflexivity. Qed.
Example abspath_rel : posixpath.abspath "/home/u" "vids/../Anime/./x/" = "/home/u/Anime/x".
Proof. reflexivity. Qed.
Example abspath_two : posixpath.abspath "/home/u" "//srv//v" = "//srv/v".
Proof. reflexivity. Qed.
Example abspath_root : posixpath.abspath "/home/u" "/../.." = "/".
Proof. reflexivity. Qed.
Example abspath_empty : posixpath.abspath "/home/u" "" = "/home/u".
Proof. reflexivity. Qed.
Example lower_ext : unicode.lower ".Mp4" = ".mp4".
Proof. reflexivity. Qed.
Example lower_kelvin : unicode.lower (".M" +:+ unicode.kelvin +:+ "V") = ".mkv".
Proof. reflexivity. Qed.

(** ** Path and string facts *)

Lemma rfind_lower_bound c s : -1 ≤ Str.rfind c s.
Proof.
  induction s as [|a r IH]; simpl; [lia|].
  destruct (0 <=? Str.rfind c r) eqn:Hk; [apply Z.leb_le in Hk; lia|].
  destruct (Ascii.eqb a c); lia.
Qed.

(** What follows the last separator holds no separator. *)
Lemma rfind_after_last c s :
  Str.rfind c (Str.slice_from (Str.rfind c s + 1) s) = -1.
Proof.
  unfold Str.slice_from.
  induction s as [|a r IH]; simpl; [reflexivity|].
  pose proof (rfind_lower_bound c r) as Hlow.
  destruct (0 <=? Str.rfind c r) eqn:Hk.
  - apply Z.leb_le in Hk.
    replace (Z.to_nat (Str.rfind c r + 1 + 1)) with (S (Z.to_nat (Str.rfind c r + 1))) by lia.
    exact IH.
  - apply Z.leb_gt in Hk.
    assert (Hr : Str.rfind c r = -1) by lia.
    destruct (Ascii.eqb a c) eqn:Hac; simpl.
    + exact Hr.
    + rewrite Hr, Hac. reflexivity.
Qed.

Lemma basename_idempotent p :
  posixpath.basename (posixpath.basename p) = posixpath.basename p.
Proof.
  unfold posixpath.basename at 1.
  unfold posixpath.basename. rewrite rfind_after_last. reflexivity.
Qed.

Lemma resolved_unfold t f :
  (if negb (posixpath.isabs f) then posixpath.join (video_folder t) f else f)
  = resolved t f.
Proof. unfold resolved. destruct (posixpath.isabs f); reflexivity. Qed.

Lemma resolved_absolute t p : posixpath.isabs p = true → resolved t p = p.
Proof. unfold resolved. intros ->. reflexivity. Qed.

(** Writing a file makes no path lead nowhere. *)
Lemma exists_insert (fs : gmap string node) p q r body :
  match fs !! p with Some Dir | Some (File _ _) => true | _ => false end = true →
  match <[q := File r body]> fs !! p with
  | Some Dir | Some (File _ _) => true
  | _ => false
  end = true.
Proof.
  intros Hp. destruct (decide (q = p)) as [->|Hne].
  - rewrite lookup_insert_eq. reflexivity.
  - rewrite lookup_insert_ne by exact Hne. exact Hp.
Qed.

Lemma dict_get_absent k items :
  k ∉ dict_keys items → dict_get k items = PNone.
Proof.
  induction items as [|[k' v] rest IH]; simpl; [reflexivity|].
  intros Hnot. apply not_elem_of_cons in Hnot as [Hne Hrest].
  destruct (String.eqb k' k) eqn:Heq.
  - apply String.eqb_eq in Heq. congruence.
  - apply IH. exact Hrest.
Qed.

Lemma dict_get_present k v items :
  NoDup (dict_keys items) → (k, v) ∈ items → dict_get k items = v.
Proof.
  induction items as [|[k' v'] rest IH]; simpl.
  - intros _ Hin. inversion Hin.
  - intros Hnd Hin. apply NoDup_cons in Hnd as [Hfresh Hnd].
    apply elem_of_cons in Hin as [Heq|Hin].
    + inversion Heq; subst. rewrite String.eqb_refl. reflexivity.
    + destruct (String.eqb k' k) eqn:Heq.
      * apply String.eqb_eq in Heq. subst k'.
        exfalso. apply Hfresh. unfold dict_keys.
        apply list_elem_of_fmap. exists (k, v). split; [reflexivity|exact Hin].
      * apply IH; assumption.
Qed.

(** ** Case folding *)

Lemma ascii_eqb_codes c d : Ascii.eqb c d = (N_of_ascii c =? N_of_ascii d)%N.
Proof.
  destruct (Ascii.eqb_spec c d) as [->|Hne].
  - symmetry. apply N.eqb_refl.
  - symmetry. apply N.eqb_neq. intros Heq. apply Hne.
    rewrite <- (ascii_N_embedding c), <- (ascii_N_embedding d), Heq. reflexivity.
Qed.

Lemma lower_char_code c :
  N_of_ascii (lower_char c)
  = (if is_upper c then N_of_ascii c + 32 else N_of_ascii c)%N.
Proof.
  unfold lower_char. destruct (is_upper c) eqn:Hup; [|reflexivity].
  apply N_ascii_embedding. unfold is_upper in Hup.
  apply andb_true_iff in Hup as [_ Hle]. apply N.leb_le in Hle. lia.
Qed.

(** Against a character that is not an upper-case letter, lowering and
    comparing is comparing up to case. *)
Lemma lower_char_same_letter c d :
  is_upper d = false →
  Ascii.eqb (lower_char c) d = same_letter c d.
Proof.
  intros Hd. rewrite ascii_eqb_codes, lower_char_code.
  unfold same_letter, is_upper in *.
  set (x := N_of_ascii c) in *. set (y := N_of_ascii d) in *.
  destruct ((65 <=? x)%N && (x <=? 90)%N) eqn:Hx; simpl.
  - rewrite Hd. simpl. rewrite orb_false_r, (N.eqb_sym (x + 32) y).
    destruct (x =? y)%N eqn:Hxy; [|reflexivity].
    apply N.eqb_eq in Hxy. rewrite <- Hxy, Hx in Hd. discriminate.
  - rewrite Hd. simpl. rewrite !orb_false_r. reflexivity.
Qed.

Lemma lower_eqb_caseless s e :
  no_upper e = true → String.eqb (ascii_lower s) e = caseless_eqb s e.
Proof.
  revert e. induction s as [|c s IH]; intros [|d e] He; simpl; try reflexivity.
  unfold no_upper in He. simpl in He.
  apply andb_true_iff in He as [Hd He]. apply negb_true_iff in Hd.
  rewrite (lower_char_same_letter c d Hd).
  destruct (same_letter c d); [apply IH; exact He|reflexivity].
Qed.

Lemma is_ascii_append a b : is_ascii (a +:+ b) = is_ascii a && is_ascii b.
Proof.
  unfold is_ascii. induction a as [|x a IH]; [reflexivity|].
  change (String x a +:+ b) with (String x (a +:+ b)).
  cbn [list_ascii_of_string forallb]. rewrite IH, andb_assoc. reflexivity.
Qed.

Lemma allowed_extension_no_upper e : e ∈ allowed_extensions → no_upper e = true.
Proof.
  unfold allowed_extensions. rewrite !elem_of_cons, elem_of_nil.
  intros [->|[->|[->|[->|[->|[]]]]]]; reflexivity.
Qed.

(** On an ASCII extension, lowering and looking up in the allow-list is
    comparing with its entries letter by letter up to case. *)
Lemma lower_allowed_caseless `{Unicode} ext :
  lowers_ascii → is_ascii ext = true →
  lower ext ∈ allowed_extensions
  ↔ ∃ e, e ∈ allowed_extensions ∧ caseless_eqb ext e = true.
Proof.
  intros Hlaw Hascii. rewrite (Hlaw ext Hascii). split.
  - intros Hin. exists (ascii_lower ext). split; [exact Hin|].
    rewrite <- lower_eqb_caseless by (apply allowed_extension_no_upper; exact Hin).
    apply String.eqb_refl.
  - intros (e & Hin & Heq).
    rewrite <- lower_eqb_caseless in Heq by (apply allowed_extension_no_upper; exact Hin).
    apply String.eqb_eq in Heq. rewrite Heq. exact Hin.
Qed.

(** The sample case mapping does on ASCII text what [str.lower] does. *)
Lemma sample_lowers_ascii : @lowers_ascii unicode.sample.
Proof.
  intros s. unfold is_ascii. cbn [lower unicode.sample].
  induction s as [|a t IH]; [reflexivity|].
  cbn [list_ascii_of_string forallb]. intros Hs.
  apply andb_true_iff in Hs as [Ha Ht].
  assert (Hnot : Ascii.eqb a "226" = false).
  { apply Ascii.eqb_neq. intros ->. discriminate Ha. }
  cbn [unicode.lower ascii_lower]. rewrite Hnot. cbn [andb].
  rewrite <- (IH Ht). destruct t as [|b [|c r]]; reflexivity.
Qed.

(** ** Strings: append, search and slices *)

Lemma append_nil (b : string) : "" +:+ b = b.
Proof. reflexivity. Qed.

Lemma append_cons x (a b : string) : String x a +:+ b = String x (a +:+ b).
Proof. reflexivity. Qed.

Lemma append_assoc (a b c : string) : (a +:+ b) +:+ c = a +:+ b +:+ c.
Proof.
  induction a as [|x a IH]; [reflexivity|].
  rewrite !append_cons, IH. reflexivity.
Qed.

Lemma drop_append a b : Str.drop (String.length a) (a +:+ b) = b.
Proof.
  induction a as [|x a IH]; [rewrite append_nil; destruct b; reflexivity|].
  rewrite append_cons. exact IH.
Qed.

Lemma take_append a b : Str.take (String.length a) (a +:+ b) = a.
Proof.
  induction a as [|x a IH]; [rewrite append_nil; destruct b; reflexivity|].
  rewrite append_cons. cbn [String.length Str.take]. rewrite IH. reflexivity.
Qed.

Lemma take_drop n s : Str.take n s +:+ Str.drop n s = s.
Proof.
  revert s. induction n as [|n IH]; intros [|x s]; try reflexivity.
  cbn [Str.take Str.drop]. rewrite append_cons, IH. reflexivity.
Qed.

Lemma rfind_append c a b :
  Str.rfind c (a +:+ b) =
    if 0 <=? Str.rfind c b then Z.of_nat (String.length a) + Str.rfind c b
    else Str.rfind c a.
Proof.
  induction a as [|x a IH].
  - rewrite append_nil. cbn [Str.rfind String.length].
    destruct (0 <=? Str.rfind c b) eqn:Hb; [lia|].
    pose proof (rfind_lower_bound c b). apply Z.leb_gt in Hb. lia.
  - rewrite append_cons. cbn [Str.rfind String.length]. rewrite IH.
    destruct (0 <=? Str.rfind c b) eqn:Hb.
    + apply Z.leb_le in Hb.
      replace (0 <=? Z.of_nat (String.length a) + Str.rfind c b) with true
        by (symmetry; apply Z.leb_le; lia).
      lia.
    + reflexivity.
Qed.

Lemma rfind_upper_bound c s : Str.rfind c s < Z.of_nat (String.length s).
Proof.
  induction s as [|a r IH]; cbn [Str.rfind String.length]; [lia|].
  destruct (0 <=? Str.rfind c r); [lia|].
  destruct (Ascii.eqb a c); lia.
Qed.

Lemma endswith_rfind c s :
  Str.endswith c s = true → Str.rfind c s = Z.of_nat (String.length s) - 1.
Proof.
  induction s as [|a r IH]; [discriminate|].
  cbn [Str.rfind String.length]. destruct r as [|b r'].
  - simpl. intros ->. reflexivity.
  - intros Hend. change (Str.endswith c (String b r') = true) in Hend.
    rewrite (IH Hend).
    replace (0 <=? Z.of_nat (String.length (String b r')) - 1) with true
      by (symmetry; apply Z.leb_le; simpl; lia).
    lia.
Qed.

Lemma endswith_append_char c s : Str.endswith c (s +:+ String c "") = true.
Proof.
  induction s as [|a r IH]; [apply Ascii.eqb_refl|].
  rewrite append_cons. cbn [Str.endswith].
  destruct (r +:+ String c "") eqn:Hr; [destruct r; discriminate|exact IH].
Qed.

Lemma strip_prefix_append pre s rest :
  strip_prefix pre s = Some rest → s = pre +:+ rest.
Proof.
  revert s. induction pre as [|a pre IH]; intros s; simpl.
  - intros [= ->]. reflexivity.
  - destruct s as [|b s]; [discriminate|].
    destruct (Ascii.eqb_spec a b) as [->|]; [|discriminate].
    intros Hs. rewrite (IH _ Hs), append_cons. reflexivity.
Qed.

Lemma no_separator_not_absolute name :
  name ≠ "" → Str.rfind posixpath.sep name = -1 → posixpath.isabs name = false.
Proof.
  destruct name as [|a r]; [congruence|]. intros _.
  unfold posixpath.isabs. cbn [Str.rfind Str.startswith].
  destruct (0 <=? Str.rfind posixpath.sep r) eqn:Hk.
  - apply Z.leb_le in Hk. lia.
  - destruct (Ascii.eqb a posixpath.sep); [discriminate|reflexivity].
Qed.

(** The basename of a name joined to a folder is the name. *)
Lemma basename_join folder name :
  folder ≠ "" → name ≠ "" → Str.rfind posixpath.sep name = -1 →
  posixpath.basename (posixpath.join folder name) = name.
Proof.
  intros Hfolder Hname Hsep.
  pose proof (no_separator_not_absolute name Hname Hsep) as Habs.
  unfold posixpath.isabs in Habs.
  unfold posixpath.join. rewrite Habs.
  apply String.eqb_neq in Hfolder. rewrite Hfolder. simpl orb.
  assert (Hgen : ∀ d, Str.endswith posixpath.sep d = true →
                      posixpath.basename (d +:+ name) = name).
  { intros d Hd. unfold posixpath.basename, Str.slice_from.
    rewrite rfind_append, Hsep. simpl. rewrite (endswith_rfind _ _ Hd).
    replace (Z.to_nat (Z.of_nat (String.length d) - 1 + 1))
      with (String.length d) by lia.
    apply drop_append. }
  destruct (Str.endswith posixpath.sep folder) eqn:Hend.
  - apply Hgen. exact Hend.
  - rewrite <- append_assoc. apply Hgen. apply endswith_append_char.
Qed.

Lemma dir_listing_names w d name :
  name ∈ dir_listing w d →
  ∃ p, is_Some (files w !! p) ∧ child_name d p = Some name.
Proof.
  unfold dir_listing. intros Hin.
  apply list_elem_of_omap in Hin as ([p n] & Hp & Hname).
  apply elem_of_map_to_list in Hp. exists p. split; [eauto|exact Hname].
Qed.

(** ** [splitext] on names without separator *)

Lemma get_append_here pre a r :
  String.get (String.length pre) (pre +:+ String a r) = Some a.
Proof. induction pre as [|x pre IH]; [reflexivity|]. rewrite append_cons. exact IH. Qed.

Lemma at_index_append_here pre a r :
  Str.at_index (Z.of_nat (String.length pre)) (pre +:+ String a r) = Some a.
Proof.
  unfold Str.at_index.
  replace (Z.of_nat (String.length pre) <? 0) with false
    by (symmetry; apply Z.ltb_ge; lia).
  rewrite Nat2Z.id. apply get_append_here.
Qed.

Lemma length_append (a b : string) :
  String.length (a +:+ b) = (String.length a + String.length b)%nat.
Proof.
  induction a as [|x a IH]; [reflexivity|].
  rewrite append_cons. cbn [String.length]. rewrite IH. reflexivity.
Qed.

(** The loop of [splitext] finds a stem exactly when the characters it
    visits are not all periods. *)
Lemma has_stem_spec stem pre rest :
  posixpath.has_stem (pre +:+ stem +:+ rest) (Z.of_nat (String.length pre))
    (String.length stem)
  = negb (all_dots stem).
Proof.
  revert pre. induction stem as [|a stem IH]; intros pre; [reflexivity|].
  cbn [String.length posixpath.has_stem all_dots].
  rewrite append_cons, at_index_append_here.
  change posixpath.extsep with "."%char.
  destruct (Ascii.eqb a ".") eqn:Ha; [|reflexivity].
  simpl andb.
  specialize (IH (pre +:+ String a "")).
  rewrite append_assoc, append_cons, append_nil, length_append in IH.
  cbn [String.length] in IH.
  replace (Z.of_nat (String.length pre) + 1)
    with (Z.of_nat (String.length pre + 1)) by lia.
  exact IH.
Qed.

Lemma length_take n s :
  (n ≤ String.length s)%nat → String.length (Str.take n s) = n.
Proof.
  revert s. induction n as [|n IH]; intros [|x s] Hn; simpl in *; try lia.
  rewrite IH; lia.
Qed.

(** What [s[s.rfind(c):]] is when [c] occurs in [s]. *)
Lemma drop_at_rfind c s :
  0 ≤ Str.rfind c s →
  ∃ rest, Str.drop (Z.to_nat (Str.rfind c s)) s = String c rest
          ∧ Str.rfind c rest = -1.
Proof.
  induction s as [|a r IH]; cbn [Str.rfind]; [lia|].
  pose proof (rfind_lower_bound c r) as Hlow.
  destruct (0 <=? Str.rfind c r) eqn:Hk.
  - apply Z.leb_le in Hk. intros _.
    replace (Z.to_nat (Str.rfind c r + 1)) with (Datatypes.S (Z.to_nat (Str.rfind c r)))
      by lia.
    exact (IH Hk).
  - apply Z.leb_gt in Hk.
    destruct (Ascii.eqb_spec a c) as [->|Hne]; [|lia].
    intros _. exists r. split; [reflexivity|lia].
Qed.

Lemma no_period_rfind s : no_period s = true ↔ Str.rfind "." s = -1.
Proof.
  unfold no_period. induction s as [|a r IH]; [split; reflexivity|].
  cbn [list_ascii_of_string forallb Str.rfind].
  pose proof (rfind_lower_bound "." r) as Hlow.
  rewrite andb_true_iff, IH, negb_true_iff.
  destruct (0 <=? Str.rfind "." r) eqn:Hk.
  - apply Z.leb_le in Hk. split; [intros [_ Hr]; lia|intros; lia].
  - apply Z.leb_gt in Hk. destruct (Ascii.eqb a "."); split.
    + intros [Hfalse _]. discriminate.
    + lia.
    + reflexivity.
    + intros _. split; [reflexivity|lia].
Qed.

(** A non-empty extension splits the name after a stem that is not made
    of periods only, at the last period. *)
Lemma splitext_stem name :
  Str.rfind posixpath.sep name = -1 →
  (posixpath.splitext name).2 ≠ "" →
  ∃ stem rest,
    name = stem +:+ String "." rest ∧ all_dots stem = false
    ∧ no_period rest = true ∧ (posixpath.splitext name).2 = String "." rest.
Proof.
  intros Hsep. unfold posixpath.splitext. rewrite Hsep.
  set (dot := Str.rfind posixpath.extsep name).
  destruct (-1 <? dot) eqn:Hdot; [|simpl; intros Hne; destruct (Hne eq_refl)].
  apply Z.ltb_lt in Hdot.
  change (-1 + 1) with 0. replace (dot - 0) with dot by lia.
  destruct (posixpath.has_stem name 0 (Z.to_nat dot)) eqn:Hstem;
    [|simpl; intros Hne; destruct (Hne eq_refl)].
  intros _. simpl. unfold Str.slice_from, Str.slice_to.
  destruct (drop_at_rfind posixpath.extsep name) as (rest & Hdrop & Hrest);
    [fold dot; lia|]. fold dot in Hdrop.
  exists (Str.take (Z.to_nat dot) name), rest.
  change (String "." rest) with (String posixpath.extsep rest).
  split; [rewrite <- Hdrop; symmetry; apply take_drop|].
  split; [|split; [apply no_period_rfind; exact Hrest|exact Hdrop]].
  pose proof (rfind_upper_bound posixpath.extsep name) as Hup. fold dot in Hup.
  pose proof (has_stem_spec (Str.take (Z.to_nat dot) name) ""
                (Str.drop (Z.to_nat dot) name)) as Hspec.
  rewrite append_nil, take_drop, length_take in Hspec by lia.
  change (Z.of_nat (String.length "")) with 0 in Hspec. rewrite Hstem in Hspec.
  destruct (all_dots _); [discriminate|reflexivity].
Qed.

(** Conversely, a stem that is not made of periods only, followed by a
    period and characters without period, is split there. *)
Lemma splitext_at stem ext :
  Str.rfind posixpath.sep (stem +:+ ext) = -1 →
  all_dots stem = false →
  Str.rfind posixpath.extsep ext = 0 →
  posixpath.splitext (stem +:+ ext) = (stem, ext).
Proof.
  intros Hsep Hstem Hext. unfold posixpath.splitext.
  rewrite Hsep, rfind_append, Hext. change (0 <=? 0) with true. cbv iota.
  change (-1 + 1) with 0. rewrite Z.add_0_r, Z.sub_0_r, Nat2Z.id.
  replace (-1 <? Z.of_nat (String.length stem)) with true
    by (symmetry; apply Z.ltb_lt; lia).
  pose proof (has_stem_spec stem "" ext) as Hspec.
  rewrite append_nil in Hspec. change (Z.of_nat (String.length "")) with 0 in Hspec.
  rewrite Hspec, Hstem. cbn [negb].
  unfold Str.slice_to, Str.slice_from. rewrite Nat2Z.id.
  rewrite take_append, drop_append. reflexivity.
Qed.

(** Letters aside, comparing up to case is comparing. *)
Lemma same_letter_other a b c :
  is_letter c = false → same_letter a b = true →
  Ascii.eqb a c = Ascii.eqb b c.
Proof.
  rewrite !ascii_eqb_codes. unfold is_letter, same_letter.
  set (x := N_of_ascii a). set (y := N_of_ascii b). set (z := N_of_ascii c).
  intros Hc Hab.
  apply orb_false_iff in Hc as [Hup Hlo].
  apply orb_true_iff in Hab as [Hab|Hab]; [apply orb_true_iff in Hab as [Hab|Hab]|].
  - apply N.eqb_eq in Hab. rewrite Hab. reflexivity.
  - apply andb_true_iff in Hab as [Hx Hy]. apply andb_true_iff in Hx as [Hx1 Hx2].
    apply N.leb_le in Hx1, Hx2. apply N.eqb_eq in Hy.
    apply andb_false_iff in Hup, Hlo.
    rewrite !N.leb_gt in Hup, Hlo.
    replace (x =? z)%N with false by (symmetry; apply N.eqb_neq; lia).
    replace (y =? z)%N with false by (symmetry; apply N.eqb_neq; lia).
    reflexivity.
  - apply andb_true_iff in Hab as [Hy Hx]. apply andb_true_iff in Hy as [Hy1 Hy2].
    apply N.leb_le in Hy1, Hy2. apply N.eqb_eq in Hx.
    apply andb_false_iff in Hup, Hlo.
    rewrite !N.leb_gt in Hup, Hlo.
    replace (x =? z)%N with false by (symmetry; apply N.eqb_neq; lia).
    replace (y =? z)%N with false by (symmetry; apply N.eqb_neq; lia).
    reflexivity.
Qed.

Lemma rfind_caseless c s e :
  is_letter c = false → caseless_eqb s e = true →
  Str.rfind c s = Str.rfind c e.
Proof.
  intros Hc. revert e. induction s as [|a s IH]; intros [|b e] Heq;
    try discriminate; [reflexivity|].
  simpl in Heq. apply andb_true_iff in Heq as [Hab Hrest].
  cbn [Str.rfind]. rewrite (IH _ Hrest), (same_letter_other a b c Hc Hab).
  reflexivity.
Qed.

(** ** The extension of a name *)

Lemma rfind_period_first rest :
  no_period rest = true → Str.rfind posixpath.extsep (String "." rest) = 0.
Proof.
  intros Hrest. apply no_period_rfind in Hrest.
  change posixpath.extsep with "."%char. cbn [Str.rfind]. rewrite Hrest. reflexivity.
Qed.

(** On a name without separator, the extension that [splitext] gives is
    the extension of the name. *)
Lemma splitext_extension_of name :
  Str.rfind posixpath.sep name = -1 →
  extension_of name (posixpath.splitext name).2.
Proof.
  intros Hsep. destruct (String.eqb_spec (posixpath.splitext name).2 "") as [Hnone|Hsome].
  - right. split; [exact Hnone|]. intros stem rest Hname Hrest.
    destruct (all_dots stem) eqn:Hstem; [reflexivity|].
    rewrite Hname in Hsep, Hnone.
    rewrite (splitext_at stem (String "." rest) Hsep Hstem (rfind_period_first rest Hrest))
      in Hnone.
    discriminate.
  - left. destruct (splitext_stem name Hsep Hsome) as (stem & rest & Hcut).
    exists stem, rest. exact Hcut.
Qed.

Lemma extension_of_splitext name ext :
  Str.rfind posixpath.sep name = -1 →
  extension_of name ext → ext = (posixpath.splitext name).2.
Proof.
  intros Hsep [(stem & rest & Hname & Hstem & Hrest & ->)|[-> Hnone]].
  - rewrite Hname in Hsep. rewrite Hname.
    rewrite (splitext_at stem (String "." rest) Hsep Hstem (rfind_period_first rest Hrest)).
    reflexivity.
  - destruct (String.eqb_spec (posixpath.splitext name).2 "") as [Heq|Hsome];
      [symmetry; exact Heq|].
    destruct (splitext_stem name Hsep Hsome) as (stem & rest & Hname & Hstem & Hrest & _).
    rewrite (Hnone stem rest Hname Hrest) in Hstem. discriminate.
Qed.

(** ** The listing *)

Lemma child_name_plain d p name :
  child_name d p = Some name →
  name ≠ "" ∧ Str.rfind posixpath.sep name = -1.
Proof.
  unfold child_name.
  destruct (strip_prefix _ p) as [rest|]; [|discriminate].
  destruct (String.eqb rest "") eqn:Hempty; [discriminate|].
  destruct (0 <=? Str.rfind posixpath.sep rest) eqn:Hsep; [discriminate|].
  simpl. intros [= <-].
  apply String.eqb_neq in Hempty. apply Z.leb_gt in Hsep.
  pose proof (rfind_lower_bound posixpath.sep rest). split; [exact Hempty|lia].
Qed.

Lemma dir_listing_plain w d name :
  name ∈ dir_listing w d → name ≠ "" ∧ Str.rfind posixpath.sep name = -1.
Proof.
  intros Hin. apply dir_listing_names in Hin as (p & _ & Hchild).
  exact (child_name_plain _ _ _ Hchild).
Qed.

Lemma filter_sublist {A} (f : A → bool) (l : list A) : sublist (List.filter f l) l.
Proof.
  induction l as [|x l IH]; simpl; [constructor|].
  destruct (f x); constructor; exact IH.
Qed.

Section Listing.

Context `{Unicode}.

Lemma list_videos_inv m videos :
  list_videos m = (Return videos, m) →
  files (os m) !! video_folder (self m) = Some Dir
  ∧ videos = List.filter is_video (dir_listing (os m) (video_folder (self m))).
Proof.
  unfold list_videos. cbv [mbind M_bind mret M_ret get_self get_os os_listdir raise].
  destruct (files (os m) !! video_folder (self m)) as [[|r body|]|];
    [|discriminate|discriminate|discriminate].
  intros [= <-]. split; reflexivity.
Qed.

Lemma list_videos_run m :
  files (os m) !! video_folder (self m) = Some Dir →
  list_videos m
  = (Return (List.filter is_video (dir_listing (os m) (video_folder (self m)))), m).
Proof.
  intros Hdir. unfold list_videos. cbv [mbind M_bind mret M_ret get_self get_os os_listdir].
  rewrite Hdir. destruct m; reflexivity.
Qed.

(** The test of [list_videos], on a name without separator. *)
Lemma is_video_spec name :
  Str.rfind posixpath.sep name = -1 →
  is_video name = true
  ↔ ∃ ext, extension_of name ext ∧ lower ext ∈ allowed_extensions.
Proof.
  intros Hsep. unfold is_video, contains. rewrite existsb_exists. split.
  - intros (e & Hin & Heq). apply String.eqb_eq in Heq.
    exists (posixpath.splitext name).2. split; [apply splitext_extension_of; exact Hsep|].
    rewrite Heq. apply list_elem_of_In. exact Hin.
  - intros (ext & Hext & Hin).
    rewrite (extension_of_splitext name ext Hsep Hext) in Hin.
    exists (lower (posixpath.splitext name).2).
    split; [apply list_elem_of_In; exact Hin|apply String.eqb_refl].
Qed.

Lemma listed_video_spec w d name :
  name ∈ List.filter is_video (dir_listing w d)
  ↔ name ∈ dir_listing w d
    ∧ ∃ ext, extension_of name ext ∧ lower ext ∈ allowed_extensions.
Proof.
  rewrite list_elem_of_In, filter_In, <- list_elem_of_In. split.
  - intros [Hin Hvideo]. split; [exact Hin|].
    apply is_video_spec; [apply (dir_listing_plain w d name Hin)|exact Hvideo].
  - intros [Hin Hext]. split; [exact Hin|].
    apply is_video_spec; [apply (dir_listing_plain w d name Hin)|exact Hext].
Qed.

End Listing.

Section Properties.

Context `{Json}.

(** ** [save_history] *)

Lemma save_history_run m :
  let tf := tracking_file (self m) in
  ∃ w',
    save_history m = (Return tt, mkMachine w' (self m))
    ∧ trace w' =
        (trace (os m) ++
         OpenW tf ::
         match write_error (os m) tf with
         | Some msg => [Print ("Error saving tracking file: " +:+ msg)]
         | None => []
         end)%list
    ∧ (write_error (os m) tf = None →
       files w' = <[tf := File (readable_bit (os m) tf)
                            (Text (dumps (history (self m))))]> (files (os m)))
    ∧ (∀ p, exists_on_disk (os m) p = true → exists_on_disk w' p = true)
    ∧ (cwd w', system w', clock w', ticks w', write_fault w', launch w')
      = (cwd (os m), system (os m), clock (os m), ticks (os m),
         write_fault (os m), launch (os m)).
Proof.
  destruct m as [w t]. simpl.
  unfold save_history, write_error. run. simpl.
  destruct (files w !! tracking_file t) as [[|r body|]|] eqn:Hf;
    destruct (write_fault w (tracking_file t)) as [[msg|n msg]|] eqn:Hw; simpl.
  all: try rewrite Hw; simpl.
  all: eexists; split; [reflexivity|]; simpl.
  all: unfold readable_bit; simpl; rewrite ?lookup_insert_eq, ?insert_insert_eq, ?Hf.
  all: rewrite <- ?app_assoc; simpl.
  all: repeat split; try done.
  all: intros p Hp; unfold exists_on_disk in *; simpl;
    repeat apply exists_insert; exact Hp.
Qed.

(** ** [track_video] *)

Lemma track_video_missing_run m f ts pct :
  exists_on_disk (os m) (resolved (self m) f) = false →
  track_video f ts pct m =
    (Return tt,
     mkMachine
       (with_event (Print ("File not found: " +:+ resolved (self m) f)) (os m))
       (self m)).
Proof.
  intros Hmiss. unfold track_video. run.
  rewrite resolved_unfold, Hmiss. reflexivity.
Qed.

Lemma track_video_run m f ts pct :
  let r := resolved (self m) f in
  exists_on_disk (os m) r = true →
  ∃ w',
    track_video f ts pct m =
      (Return tt,
       mkMachine w'
         (mkVideoTracker (video_folder (self m)) (tracking_file (self m))
            (PDict [(posixpath.basename r,
                     watch_record (stamp (os m) ts) pct r)])))
    ∧ (∀ p, exists_on_disk (os m) p = true → exists_on_disk w' p = true).
Proof.
  intros r Hex. unfold track_video. run.
  rewrite resolved_unfold. fold r. rewrite Hex. simpl.
  destruct ts; simpl.
  all: match goal with
       | |- context [save_history ?m1] =>
           destruct (save_history_run m1) as (w' & Hrun & _ & _ & Hkeep & _)
       end.
  all: simpl in Hrun; rewrite Hrun; eexists; split; [reflexivity|].
  all: intros p Hp; apply Hkeep; exact Hp.
Qed.

(** C1. When the paths of [a] and [b] both exist, [track_video a] and
    then [track_video b] leave a history of exactly one entry, keyed by
    the basename of [b]'s path; no other key, the one of [a] included,
    has an entry. Already the first call, whatever the history held
    before, leaves exactly the entry of [a]. *)
Theorem track_replaces_history_with_single_entry
    m a b ts_a pct_a ts_b pct_b :
  let ra := resolved (self m) a in
  let rb := resolved (self m) b in
  exists_on_disk (os m) ra = true →
  exists_on_disk (os m) rb = true →
  ∃ m1 m2,
    track_video a ts_a pct_a m = (Return tt, m1)
    ∧ history (self m1) =
        PDict [(posixpath.basename ra, watch_record (stamp (os m) ts_a) pct_a ra)]
    ∧ track_video b ts_b pct_b m1 = (Return tt, m2)
    ∧ history (self m2) =
        PDict [(posixpath.basename rb, watch_record (stamp (os m1) ts_b) pct_b rb)]
    ∧ (∀ k items, history (self m2) = PDict items →
         k ≠ posixpath.basename rb →
         (k ∉ dict_keys items) ∧ dict_get k items = PNone).
Proof.
  intros ra rb Ha Hb.
  destruct (track_video_run m a ts_a pct_a Ha) as (w1 & Hrun1 & Hkeep).
  set (m1 := mkMachine w1
               (mkVideoTracker (video_folder (self m)) (tracking_file (self m))
                  (PDict [(posixpath.basename ra,
                           watch_record (stamp (os m) ts_a) pct_a ra)]))).
  assert (Hb1 : exists_on_disk (os m1) (resolved (self m1) b) = true)
    by (apply Hkeep; exact Hb).
  destruct (track_video_run m1 b ts_b pct_b Hb1) as (w2 & Hrun2 & _).
  exists m1. eexists. split; [exact Hrun1|]. split; [reflexivity|].
  split; [exact Hrun2|]. split; [reflexivity|].
  simpl. intros k items [= <-] Hk.
  assert (Hnot : k ∉ dict_keys [(posixpath.basename rb,
                                 watch_record (stamp w1 ts_b) pct_b rb)]).
  { simpl. intros Hin. apply list_elem_of_singleton in Hin. exact (Hk Hin). }
  split; [exact Hnot|]. apply dict_get_absent. exact Hnot.
Qed.

(** C2. When the resolved path does not exist, [track_video] prints
    "File not found" and returns; the tracker object, its history
    included, and the file system are as before, and the only event is
    the print: no file was opened for writing. *)
Theorem track_missing_file_changes_nothing m f ts pct :
  let r := resolved (self m) f in
  exists_on_disk (os m) r = false →
  ∃ m',
    track_video f ts pct m = (Return tt, m')
    ∧ self m' = self m
    ∧ history (self m') = history (self m)
    ∧ files (os m') = files (os m)
    ∧ trace (os m') = (trace (os m) ++ [Print ("File not found: " +:+ r)])%list
    ∧ (∀ path, OpenW path ∉ drop (length (trace (os m))) (trace (os m'))).
Proof.
  intros r Hmiss. rewrite (track_video_missing_run m f ts pct Hmiss).
  eexists. split; [reflexivity|]. simpl. repeat split.
  intros path. rewrite drop_app_length.
  intros Hin. apply list_elem_of_singleton in Hin. discriminate.
Qed.

(** ** [load_history] *)

Lemma load_history_cases m :
  load_history m =
    (match files (os m) !! tracking_file (self m) with
     | Some (File true (Text text)) =>
         match loads text with
         | inl v => Return v
         | inr e => if caught_by_load e then Return (PDict []) else Raise e
         end
     | Some (File true Garbled) =>
         Raise (mkExn UnicodeDecodeError "invalid start byte")
     | _ => Return (PDict [])
     end, m).
Proof.
  destruct m as [w t]. unfold load_history, caught_by_load. run.
  unfold exists_on_disk. simpl.
  destruct (files w !! tracking_file t) as [[|[] [text|]|]|] eqn:Hf; simpl;
    rewrite ?Hf; simpl; try reflexivity.
  destruct (loads text) as [v|e]; [reflexivity|].
  destruct (isinstance e JSONDecodeError || isinstance e OSError)%bool; reflexivity.
Qed.

(** Where the path leads nowhere, the file cannot be opened for reading,
    or the decoder raises [JSONDecodeError], [load_history] returns the
    empty mapping and the machine is as before. *)
Lemma load_history_falls_back_to_empty m :
  no_history (os m) (tracking_file (self m)) →
  load_history m = (Return (PDict []), m).
Proof.
  rewrite load_history_cases.
  intros [Hf|Hf|body Hf|text e Hf Hbad Hcaught].
  - unfold exists_on_disk in Hf.
    destruct (files (os m) !! tracking_file (self m)) as [[|r body|]|];
      try discriminate; reflexivity.
  - rewrite Hf. reflexivity.
  - rewrite Hf. reflexivity.
  - rewrite Hf, Hbad, Hcaught. reflexivity.
Qed.

(** C3. The claim fails on a history file that is there and is not
    JSON in one of two ways: its bytes are not text, so that reading it
    raises [UnicodeDecodeError], or the decoder answers its text with an
    exception other than [JSONDecodeError], such as [RecursionError].
    The [except] clause of [load_history] names [JSONDecodeError] and
    [IOError] only: the exception leaves [load_history] instead of
    giving the empty mapping. *)
Theorem load_history_lets_decoding_errors_escape m c :
  load_escapes (os m) (tracking_file (self m)) c →
  ∃ e, load_history m = (Raise e, m)
       ∧ exn_cls e = c
       ∧ isinstance e JSONDecodeError = false
       ∧ isinstance e OSError = false.
Proof.
  rewrite load_history_cases. intros [Hf|text e Hf Hbad Hcaught].
  - rewrite Hf. eexists. repeat split.
  - rewrite Hf, Hbad, Hcaught. exists e.
    apply orb_false_iff in Hcaught as [Hjson Hos]. repeat split; assumption.
Qed.

(** C4. After [track_video] of an existing absolute path whose last
    component is a file name, [get_last_watched] of that bare name
    returns the record just stored. *)
Theorem track_absolute_then_query_bare_name m p ts pct :
  posixpath.isabs p = true →
  exists_on_disk (os m) p = true →
  posixpath.basename p ≠ "" →
  ∃ m',
    track_video p ts pct m = (Return tt, m')
    ∧ history (self m') =
        PDict [(posixpath.basename p, watch_record (stamp (os m) ts) pct p)]
    ∧ get_last_watched (Some (posixpath.basename p)) m'
      = (Return (watch_record (stamp (os m) ts) pct p), m').
Proof.
  intros Habs Hex Hname.
  pose proof (resolved_absolute (self m) p Habs) as Hr.
  destruct (track_video_run m p ts pct) as (w' & Hrun & _).
  { rewrite Hr. exact Hex. }
  rewrite Hr in Hrun. eexists. split; [exact Hrun|]. split; [reflexivity|].
  unfold get_last_watched, truthy, method_get. run. simpl.
  apply String.eqb_neq in Hname. rewrite Hname. simpl.
  rewrite basename_idempotent, String.eqb_refl. reflexivity.
Qed.

(** C8. [save_history] returns normally and leaves the tracker object,
    its history included, as it was, whether the write succeeds or fails
    with an [OSError]. On failure the error is printed after the attempt
    to open the file; on success the file holds the dumped history. *)
Theorem save_history_keeps_memory m :
  let tf := tracking_file (self m) in
  ∃ m',
    save_history m = (Return tt, m')
    ∧ self m' = self m
    ∧ history (self m') = history (self m)
    ∧ match write_error (os m) tf with
      | Some msg =>
          trace (os m') =
            (trace (os m) ++
             [OpenW tf; Print ("Error saving tracking file: " +:+ msg)])%list
      | None =>
          trace (os m') = (trace (os m) ++ [OpenW tf])%list
          ∧ ∃ r, files (os m') !! tf
                 = Some (File r (Text (dumps (history (self m)))))
      end.
Proof.
  intros tf.
  destruct (save_history_run m) as (w' & Hrun & Htrace & Hfiles & _).
  eexists. split; [exact Hrun|]. simpl. repeat split.
  fold tf in Htrace, Hfiles.
  destruct (write_error (os m) tf) as [msg|].
  - exact Htrace.
  - split; [exact Htrace|]. rewrite Hfiles by reflexivity.
    rewrite lookup_insert_eq. eauto.
Qed.

(** C9. After a successful [track_video] the history is one entry whose
    key is the basename of the record's [full_path], and [full_path] is
    the argument when it is absolute, else the tracked folder joined
    with it. *)
Theorem tracked_entry_is_self_consistent m f ts pct :
  let full_path :=
    if posixpath.isabs f then f
    else posixpath.join (video_folder (self m)) f in
  exists_on_disk (os m) full_path = true →
  ∃ m' key record,
    track_video f ts pct m = (Return tt, m')
    ∧ history (self m') = PDict [(key, PDict record)]
    ∧ dict_get "full_path" record = PStr full_path
    ∧ key = posixpath.basename full_path.
Proof.
  intros full_path Hex.
  destruct (track_video_run m f ts pct Hex) as (w' & Hrun & _).
  eexists. eexists. eexists. split; [exact Hrun|].
  split; [reflexivity|]. split; reflexivity.
Qed.

(** C10. When the history file can be read and its text decodes to a
    JSON value, [load_history] returns that value whatever its shape:
    no check makes it a mapping. *)
Theorem load_history_returns_any_json_value m text v :
  files (os m) !! tracking_file (self m) = Some (File true (Text text)) →
  loads text = inl v →
  load_history m = (Return v, m).
Proof.
  destruct m as [w t]. simpl. unfold load_history. run. unfold exists_on_disk. simpl.
  intros Hf Hv. repeat (rewrite Hf; simpl). rewrite Hv. reflexivity.
Qed.

(** ** [play_video] *)

Lemma play_video_run m f :
  let r := resolved (self m) f in
  launch_raises_only_exceptions (os m) r →
  play_video f m =
    track_video r PNone (PInt 0)
      (mkMachine (with_events (playback_events (os m) r) (os m)) (self m)).
Proof.
  destruct m as [w t]. simpl. intros Hexn.
  unfold play_video. run. rewrite resolved_unfold. simpl.
  unfold launch_raises_only_exceptions, launch_event in Hexn.
  unfold playback_events, launch_event.
  set (r := resolved t f) in *.
  destruct (String.eqb (system w) "Darwin");
    [|destruct (String.eqb (system w) "Windows");
      [|destruct (String.eqb (system w) "Linux")]].
  4: reflexivity.
  all: simpl.
  all: match goal with
       | |- context [launch ?w0 ?ev] =>
           destruct (launch w0 ev) as [e|] eqn:Hl;
           [rewrite (Hexn ev e eq_refl Hl)|]
       end.
  all: simpl; unfold with_event, with_events; simpl.
  all: rewrite <- ?app_assoc; reflexivity.
Qed.

(** C7. Whatever the launch does (it succeeds, it raises an exception,
    which is printed, or the platform is unsupported, which is printed),
    [play_video] goes on to [track_video] of the resolved path with the
    default timestamp and percentage, in a world that differs only by
    the events of the attempt. So an existing file is recorded with the
    time of the call and percentage 0, and a missing one is reported. *)
Theorem play_video_always_tracks m f :
  let r := resolved (self m) f in
  let attempted := with_events (playback_events (os m) r) (os m) in
  launch_raises_only_exceptions (os m) r →
  play_video f m = track_video r PNone (PInt 0) (mkMachine attempted (self m))
  ∧ files attempted = files (os m)
  ∧ (exists_on_disk (os m) (resolved (self m) r) = true →
     ∃ m', play_video f m = (Return tt, m')
           ∧ history (self m') =
               PDict [(posixpath.basename (resolved (self m) r),
                       watch_record (PStr (clock (os m) (ticks (os m))))
                         (PInt 0) (resolved (self m) r))])
  ∧ (exists_on_disk (os m) (resolved (self m) r) = false →
     ∃ m', play_video f m = (Return tt, m')
           ∧ history (self m') = history (self m)
           ∧ last (trace (os m'))
             = Some (Print ("File not found: " +:+ resolved (self m) r))).
Proof.
  intros r attempted Hexn.
  pose proof (play_video_run m f Hexn) as Hplay. fold r attempted in Hplay.
  split; [exact Hplay|]. split; [reflexivity|]. split.
  - intros Hex.
    destruct (track_video_run (mkMachine attempted (self m)) r PNone (PInt 0))
      as (w' & Hrun & _); [exact Hex|].
    rewrite Hplay, Hrun. eexists. split; reflexivity.
  - intros Hmiss.
    rewrite Hplay, (track_video_missing_run (mkMachine attempted (self m))
                      r PNone (PInt 0) Hmiss).
    eexists. split; [reflexivity|]. split; [reflexivity|].
    simpl. apply last_snoc.
Qed.

End Properties.

(** ** [get_last_watched] and [list_videos] *)

(** C5, amended. For a non-empty identifier and a history that is a
    mapping, [get_last_watched] returns what the mapping holds under the
    identifier's basename: the record stored there, [None] when the key
    is absent. With no identifier, and with the empty string,
    it returns the whole history. *)
Theorem get_last_watched_by_identifier m :
  (∀ ident items,
     ident ≠ "" →
     history (self m) = PDict items →
     get_last_watched (Some ident) m
       = (Return (dict_get (posixpath.basename ident) items), m)
     ∧ (posixpath.basename ident ∉ dict_keys items →
        get_last_watched (Some ident) m = (Return PNone, m))
     ∧ (∀ record, NoDup (dict_keys items) →
          (posixpath.basename ident, record) ∈ items →
          get_last_watched (Some ident) m = (Return record, m)))
  ∧ get_last_watched None m = (Return (history (self m)), m)
  ∧ get_last_watched (Some "") m = (Return (history (self m)), m).
Proof.
  split; [|split; reflexivity].
  intros ident items Hne Hhist.
  assert (Hrun : get_last_watched (Some ident) m
                 = (Return (dict_get (posixpath.basename ident) items), m)).
  { unfold get_last_watched, truthy, method_get.
    cbv [mbind M_bind mret M_ret get_self].
    apply String.eqb_neq in Hne. rewrite Hne, Hhist. reflexivity. }
  split; [exact Hrun|]. split.
  - intros Habsent. rewrite Hrun, (dict_get_absent _ _ Habsent). reflexivity.
  - intros record Hnd Hin. rewrite Hrun, (dict_get_present _ _ _ Hnd Hin). reflexivity.
Qed.

Lemma extension_of_ascii name ext :
  extension_of name ext → is_ascii name = true → is_ascii ext = true.
Proof.
  intros [(stem & rest & -> & _ & _ & ->)|[-> _]]; [|reflexivity].
  rewrite is_ascii_append. intros Hname. apply andb_true_iff in Hname as [_ Hext].
  exact Hext.
Qed.

(** C6. When the tracked folder is a directory, [list_videos] returns
    names of its listing, in the listing's order. A name of the listing
    is returned exactly when its extension, lowered, is one of .mp4,
    .avi, .mkv, .mov, .wmv; every other name is left out. Where
    [str.lower] does on ASCII text what it does in Python, an ASCII name
    is returned exactly when its extension agrees with one of the five
    letter by letter up to case. *)
Theorem list_videos_filters_by_extension `{Unicode} m :
  let folder := video_folder (self m) in
  let listing := dir_listing (os m) folder in
  files (os m) !! folder = Some Dir →
  ∃ videos,
    list_videos m = (Return videos, m)
    ∧ sublist videos listing
    ∧ (∀ name, name ∈ videos ↔
               name ∈ listing
               ∧ ∃ ext, extension_of name ext ∧ lower ext ∈ allowed_extensions)
    ∧ (lowers_ascii →
       ∀ name, is_ascii name = true →
         (name ∈ videos ↔
          name ∈ listing
          ∧ ∃ ext e, extension_of name ext ∧ e ∈ allowed_extensions
                     ∧ caseless_eqb ext e = true)).
Proof.
  intros folder listing Hdir.
  exists (List.filter is_video listing).
  split; [apply list_videos_run; exact Hdir|].
  split; [apply filter_sublist|].
  split; [intros name; apply listed_video_spec|].
  intros Hlaw name Hname. unfold listing. rewrite listed_video_spec. split.
  - intros [Hin (ext & Hext & Hlow)]. split; [exact Hin|].
    apply (lower_allowed_caseless ext Hlaw (extension_of_ascii _ _ Hext Hname)) in Hlow
      as (e & He & Heq).
    exists ext, e. auto.
  - intros [Hin (ext & e & Hext & He & Heq)]. split; [exact Hin|].
    exists ext. split; [exact Hext|].
    apply (lower_allowed_caseless ext Hlaw (extension_of_ascii _ _ Hext Hname)).
    exists e. auto.
Qed.

(** ** The theorems on the sample folder *)

Lemma track_replaces_history_with_single_entry_witness :
  let m := demo.machine demo.two_entries in
  exists_on_disk (os m) (resolved (self m) "ep1.mp4") = true
  ∧ exists_on_disk (os m) (resolved (self m) "ep2.MKV") = true
  ∧ ∃ m1 m2,
      @track_video json.codec "ep1.mp4" PNone (PInt 0) m = (Return tt, m1)
      ∧ history (self m1) =
          PDict [("ep1.mp4",
                  watch_record (PStr "2024-01-01T12:00:00") (PInt 0) "/videos/ep1.mp4")]
      ∧ @track_video json.codec "ep2.MKV" PNone (PInt 0) m1 = (Return tt, m2)
      ∧ history (self m2) =
          PDict [("ep2.MKV",
                  watch_record (PStr "2024-01-01T12:00:01") (PInt 0) "/videos/ep2.MKV")].
Proof.
  intros m. split; [vm_compute; reflexivity|]. split; [vm_compute; reflexivity|].
  destruct (@track_replaces_history_with_single_entry json.codec m
              "ep1.mp4" "ep2.MKV" PNone (PInt 0) PNone (PInt 0))
    as (m1 & m2 & H1 & Hh1 & H2 & Hh2 & _);
    [vm_compute; reflexivity | vm_compute; reflexivity |].
  exists m1, m2. split; [exact H1|]. split; [exact Hh1|].
  split; [exact H2|]. rewrite Hh2.
  vm_compute in H1. injection H1 as <-. reflexivity.
Defined.

Lemma track_missing_file_changes_nothing_witness :
  let m := demo.machine demo.two_entries in
  exists_on_disk (os m) (resolved (self m) "nonexistent.mp4") = false
  ∧ ∃ m',
      @track_video json.codec "nonexistent.mp4" PNone (PInt 0) m = (Return tt, m')
      ∧ history (self m') = demo.two_entries
      ∧ files (os m') = demo.folder
      ∧ trace (os m') = [Print "File not found: /videos/nonexistent.mp4"].
Proof.
  intros m. split; [vm_compute; reflexivity|].
  destruct (@track_missing_file_changes_nothing json.codec m
              "nonexistent.mp4" PNone (PInt 0))
    as (m' & Hrun & _ & Hhist & Hfiles & Htrace & _); [vm_compute; reflexivity|].
  exists m'. split; [exact Hrun|]. split; [exact Hhist|].
  split; [exact Hfiles|]. exact Htrace.
Defined.

Lemma load_history_lets_decoding_errors_escape_witness :
  let undecodable := demo.with_history_file (File true Garbled) in
  let nested := demo.with_history_file (File true (Text demo2.brackets)) in
  (∃ e, @load_history json.codec undecodable = (Raise e, undecodable)
        ∧ exn_cls e = UnicodeDecodeError)
  ∧ (∃ e, @load_history demo2.bounded nested = (Raise e, nested)
          ∧ exn_cls e = RecursionError).
Proof.
  intros undecodable nested. split.
  - destruct (@load_history_lets_decoding_errors_escape json.codec undecodable
                UnicodeDecodeError) as (e & Hrun & Hcls & _).
    + apply escapes_undecodable. vm_compute. reflexivity.
    + exists e. split; [exact Hrun|exact Hcls].
  - destruct (@load_history_lets_decoding_errors_escape demo2.bounded nested
                RecursionError) as (e & Hrun & Hcls & _).
    + apply (@escapes_decoder demo2.bounded _ _ demo2.brackets demo2.too_deep);
        vm_compute; reflexivity.
    + exists e. split; [exact Hrun|exact Hcls].
Defined.

Lemma track_absolute_then_query_bare_name_witness :
  let m := demo.machine demo.two_entries in
  let p := "/videos/season2/ep3.mp4" in
  posixpath.isabs p = true
  ∧ exists_on_disk (os m) p = true
  ∧ posixpath.basename p = "ep3.mp4"
  ∧ ∃ m',
      @track_video json.codec p PNone (PInt 25) m = (Return tt, m')
      ∧ get_last_watched (Some "ep3.mp4") m'
        = (Return (watch_record (PStr "2024-01-01T12:00:00") (PInt 25) p), m').
Proof.
  intros m p. split; [reflexivity|]. split; [vm_compute; reflexivity|].
  split; [reflexivity|].
  destruct (@track_absolute_then_query_bare_name json.codec m p PNone (PInt 25))
    as (m' & Hrun & _ & Hget);
    [reflexivity | vm_compute; reflexivity | vm_compute; discriminate |].
  exists m'. split; [exact Hrun|]. exact Hget.
Defined.

Lemma get_last_watched_by_identifier_witness :
  let m := demo.machine demo.two_entries in
  get_last_watched (Some "/elsewhere/ep2.MKV") m
    = (Return (watch_record (PStr "2023-12-31T09:00:00") (PInt 40) "/videos/ep2.MKV"), m)
  ∧ get_last_watched (Some "ep1.mp4") m = (Return PNone, m).
Proof.
  intros m.
  destruct (get_last_watched_by_identifier m) as (Hident & _ & _). split.
  - destruct (Hident "/elsewhere/ep2.MKV" _ ltac:(discriminate) eq_refl) as (Hrun & _).
    exact Hrun.
  - destruct (Hident "ep1.mp4" _ ltac:(discriminate) eq_refl) as (Hrun & _).
    exact Hrun.
Defined.

(** C5 as stated fails for the empty string: the claim promises what is
    stored under the basename of the identifier, here nothing, and the
    method returns the whole history. *)
Lemma get_last_watched_empty_identifier_counterexample :
  let m := demo.machine demo.two_entries in
  ∃ items,
    history (self m) = PDict items
    ∧ dict_get (posixpath.basename "") items = PNone
    ∧ get_last_watched (Some "") m = (Return demo.two_entries, m)
    ∧ get_last_watched (Some "") m
      ≠ (Return (dict_get (posixpath.basename "") items), m).
Proof.
  intros m. eexists. split; [reflexivity|]. split; [reflexivity|].
  split; [reflexivity|]. vm_compute. discriminate.
Defined.

Lemma list_videos_filters_by_extension_witness :
  let m := mkMachine (demo.world demo2.mixed) (demo.tracker PNone) in
  let kelvin_name := "a.m" +:+ unicode.kelvin +:+ "v" in
  files (os m) !! video_folder (self m) = Some Dir
  ∧ dir_listing (os m) "/videos"
    = ["gone.mov"; "season2"; "clip.mp4.txt"; "ep1.mp4"; "ep2.MKV"; kelvin_name;
       "notes.txt"; ".mp4"; "..mkv"; "b.Avi"]
  ∧ @list_videos unicode.sample m
    = (Return ["gone.mov"; "ep1.mp4"; "ep2.MKV"; kelvin_name; "b.Avi"], m).
Proof.
  intros m kelvin_name. split; [vm_compute; reflexivity|].
  split; [vm_compute; reflexivity|].
  destruct (@list_videos_filters_by_extension unicode.sample m)
    as (videos & Hrun & _); [vm_compute; reflexivity|].
  rewrite Hrun. vm_compute in Hrun. injection Hrun as <-. reflexivity.
Defined.

Lemma play_video_always_tracks_witness :
  let ok := mkMachine (demo.world demo.folder) (demo.tracker PNone) in
  let failing :=
    mkMachine (demo.host "Darwin" demo.player_fails demo.folder) (demo.tracker PNone) in
  let unsupported :=
    mkMachine (demo.host "FreeBSD" (λ _, None) demo.folder) (demo.tracker PNone) in
  let entry :=
    PDict [("ep1.mp4",
            watch_record (PStr "2024-01-01T12:00:00") (PInt 0) "/videos/ep1.mp4")] in
  (∃ m', @play_video json.codec "ep1.mp4" ok = (Return tt, m')
         ∧ history (self m') = entry)
  ∧ (∃ m', @play_video json.codec "ep1.mp4" failing = (Return tt, m')
           ∧ history (self m') = entry)
  ∧ (∃ m', @play_video json.codec "ep1.mp4" unsupported = (Return tt, m')
           ∧ history (self m') = entry).
Proof.
  intros ok failing unsupported entry. split; [|split].
  - destruct (@play_video_always_tracks json.codec ok "ep1.mp4")
      as (_ & _ & Htracked & _).
    + intros ev e _ Hl. discriminate Hl.
    + apply Htracked. vm_compute. reflexivity.
  - destruct (@play_video_always_tracks json.codec failing "ep1.mp4")
      as (_ & _ & Htracked & _).
    + intros ev e _ [= <-]. reflexivity.
    + apply Htracked. vm_compute. reflexivity.
  - destruct (@play_video_always_tracks json.codec unsupported "ep1.mp4")
      as (_ & _ & Htracked & _).
    + intros ev e _ Hl. discriminate Hl.
    + apply Htracked. vm_compute. reflexivity.
Defined.

Lemma tracked_entry_is_self_consistent_witness :
  let m := demo.machine demo.two_entries in
  exists_on_disk (os m) (posixpath.join "/videos" "ep1.mp4") = true
  ∧ ∃ m' key record,
      @track_video json.codec "ep1.mp4" PNone (PInt 0) m = (Return tt, m')
      ∧ history (self m') = PDict [(key, PDict record)]
      ∧ dict_get "full_path" record = PStr "/videos/ep1.mp4"
      ∧ key = "ep1.mp4".
Proof.
  intros m. split; [vm_compute; reflexivity|].
  apply (@tracked_entry_is_self_consistent json.codec m "ep1.mp4" PNone (PInt 0)).
  vm_compute. reflexivity.
Defined.

Lemma load_history_returns_any_json_value_witness :
  let array := demo.with_history_file (File true (Text "[1, 2]")) in
  let number := demo.with_history_file (File true (Text "42")) in
  @load_history json.codec array = (Return (PList [PInt 1; PInt 2]), array)
  ∧ @load_history json.codec number = (Return (PInt 42), number).
Proof.
  intros array number. split.
  - apply (@load_history_returns_any_json_value json.codec array "[1, 2]");
      vm_compute; reflexivity.
  - apply (@load_history_returns_any_json_value json.codec number "42");
      vm_compute; reflexivity.
Defined.

(** ** The behaviour at the edges of the claims *)

(** A history that is not a mapping has no [get]: the query raises. *)
Example get_last_watched_on_array :
  ∃ e, get_last_watched (Some "ep1.mp4") (demo.machine (PList [PInt 1; PInt 2]))
       = (Raise e, demo.machine (PList [PInt 1; PInt 2]))
       ∧ exn_cls e = AttributeError.
Proof. eexists. split; reflexivity. Qed.

(** Tracking a directory by a path that ends in a separator stores the
    empty key, which a query by bare name cannot single out. *)
Example track_directory_path :
  let m := snd (@track_video json.codec "/videos/season2/" PNone (PInt 0)
                  (mkMachine (demo.world (<["/videos/season2/" := Dir]> demo.folder))
                     (demo.tracker PNone))) in
  dict_keys (match history (self m) with PDict items => items | _ => [] end) = [""]
  ∧ fst (get_last_watched (Some (posixpath.basename "/videos/season2/")) m)
    = Return (history (self m)).
Proof. vm_compute. split; reflexivity. Qed.

(** A [KeyboardInterrupt] during the launch is no [Exception]: it
    leaves [play_video] before the tracking. *)
Example play_video_interrupted :
  let m := mkMachine (demo.host "Linux" demo.interrupted demo.folder)
             (demo.tracker PNone) in
  ∃ e m', @play_video json.codec "ep1.mp4" m = (Raise e, m')
          ∧ exn_cls e = KeyboardInterrupt
          ∧ history (self m') = PNone.
Proof. eexists. eexists. vm_compute. repeat split. Qed.

(** A name that is listed and leads nowhere is not tracked: the history
    stays as it was and the name is reported missing. *)
Example track_dangling_name :
  let m := mkMachine (demo.world demo2.mixed) (demo.tracker (PDict [])) in
  In "gone.mov" (dir_listing (os m) "/videos")
  ∧ @track_video json.codec "gone.mov" PNone (PInt 0) m
    = (Return tt,
       mkMachine (with_event (Print "File not found: /videos/gone.mov") (os m))
         (self m)).
Proof. vm_compute. split; [tauto|reflexivity]. Qed.

(** The scenario of the specification: list, play the first, query. *)
Example end_to_end :
  let m := demo.machine (PDict []) in
  fst (@list_videos unicode.sample m) = Return ["ep1.mp4"; "ep2.MKV"]
  ∧ let m' := snd (@play_video json.codec "ep1.mp4" m) in
    fst (get_last_watched None m')
    = Return (PDict [("ep1.mp4",
                      watch_record (PStr "2024-01-01T12:00:00") (PInt 0)
                        "/videos/ep1.mp4")])
    ∧ trace (os m')
      = [Run ["xdg-open"; "/videos/ep1.mp4"]; OpenW "/videos/.tracker.json"]
    ∧ fst (@__init__ json.codec "/videos" (os m')) = Return (self m').
Proof. vm_compute. repeat split. Qed.

(** * Further properties of the methods *)

(** ** Names that are listed *)

Lemma allowed_extension_starts_with_period ext e :
  e ∈ allowed_extensions → caseless_eqb ext e = true →
  ∃ rest, ext = String "." rest ∧ no_period rest = true.
Proof.
  intros Hin Heq.
  assert (Hdot : Str.rfind "." ext = 0).
  { rewrite (rfind_caseless "." ext e eq_refl Heq).
    unfold allowed_extensions in Hin. rewrite !elem_of_cons, elem_of_nil in Hin.
    destruct Hin as [->|[->|[->|[->|[->|[]]]]]]; reflexivity. }
  destruct (drop_at_rfind "." ext) as (rest & Hdrop & Hrest); [lia|].
  rewrite Hdot in Hdrop. exists rest. split; [exact Hdrop|].
  apply no_period_rfind. exact Hrest.
Qed.

(** X13. Where [str.lower] does on ASCII text what it does in Python,
    [list_videos] returns the ASCII names of the folder that end, up to
    the case of their letters, in one of the five extensions after a
    stem that is not made of periods only: hidden names such as [.mp4]
    or [..mkv] are left out, and so is every ASCII name without such an
    ending. *)
Theorem list_videos_by_suffix `{Unicode} m videos :
  lowers_ascii →
  list_videos m = (Return videos, m) →
  ∀ name,
    is_ascii name = true →
    name ∈ videos ↔
    name ∈ dir_listing (os m) (video_folder (self m))
    ∧ ∃ stem ext e,
        name = stem +:+ ext ∧ all_dots stem = false
        ∧ e ∈ allowed_extensions ∧ caseless_eqb ext e = true.
Proof.
  intros Hlaw Hlist name Hascii. apply list_videos_inv in Hlist as [_ ->].
  rewrite listed_video_spec. split.
  - intros [Hin (ext & Hext & Hlow)]. split; [exact Hin|].
    apply (lower_allowed_caseless ext Hlaw (extension_of_ascii _ _ Hext Hascii)) in Hlow
      as (e & He & Heq).
    destruct Hext as [(stem & rest & Hname & Hstem & _ & ->)|[-> _]].
    + exists stem, (String "." rest), e. auto.
    + destruct e; [|discriminate Heq].
      unfold allowed_extensions in He. rewrite !elem_of_cons, elem_of_nil in He.
      destruct He as [?|[?|[?|[?|[?|[]]]]]]; discriminate.
  - intros [Hin (stem & ext & e & Hname & Hstem & He & Heq)]. split; [exact Hin|].
    destruct (allowed_extension_starts_with_period ext e He Heq) as (rest & -> & Hrest).
    exists (String "." rest). split; [left; exists stem, rest; auto|].
    apply (lower_allowed_caseless _ Hlaw); [|exists e; auto].
    rewrite Hname, is_ascii_append in Hascii.
    apply andb_true_iff in Hascii as [_ Hext]. exact Hext.
Qed.

(** ** Absolute paths *)

Lemma join_absolute a b :
  posixpath.isabs a = true → posixpath.isabs (posixpath.join a b) = true.
Proof.
  unfold posixpath.isabs, posixpath.join. intros Ha.
  destruct (Str.startswith posixpath.sep b) eqn:Hb; [exact Hb|].
  destruct a as [|c a']; [discriminate|].
  destruct (String.eqb (String c a') "" || Str.endswith posixpath.sep (String c a'))%bool;
    exact Ha.
Qed.

Lemma normpath_absolute p :
  posixpath.isabs p = true → posixpath.isabs (posixpath.normpath p) = true.
Proof.
  unfold posixpath.isabs, posixpath.normpath. intros Hp.
  destruct p as [|c p']; [discriminate|]. simpl in Hp.
  cbn -[posixpath.norm_comps Str.join Str.split]. rewrite Hp.
  destruct (Str.startswith posixpath.sep p'
            && negb (Str.startswith posixpath.sep
                       match p' with "" => "" | String _ r => r end))%bool;
    reflexivity.
Qed.

Lemma abspath_absolute cwd path :
  posixpath.isabs cwd = true → posixpath.isabs (posixpath.abspath cwd path) = true.
Proof.
  intros Hcwd. unfold posixpath.abspath. apply normpath_absolute.
  destruct (posixpath.isabs path) eqn:Hp; [exact Hp|].
  apply join_absolute. exact Hcwd.
Qed.

Lemma resolved_is_absolute t f :
  posixpath.isabs (video_folder t) = true → posixpath.isabs (resolved t f) = true.
Proof.
  intros Hfolder. unfold resolved.
  destruct (posixpath.isabs f) eqn:Hf; [exact Hf|].
  apply join_absolute. exact Hfolder.
Qed.


Lemma files_after_failed_open w path text :
  open_fails w path = true → files_after_write w path text = files w.
Proof.
  unfold open_fails, files_after_write.
  destruct (files w !! path) as [[|r body|]|];
    destruct (write_fault w path) as [[msg|n msg]|];
    try discriminate; reflexivity.
Qed.

Lemma failed_open_is_reported w path :
  open_fails w path = true → ∃ msg, write_error w path = Some msg.
Proof.
  unfold open_fails, write_error.
  destruct (files w !! path) as [[|r body|]|];
    destruct (write_fault w path) as [[msg|n msg]|];
    try discriminate; eauto.
Qed.

Section Methods.

Context `{Json} `{Unicode}.

(** ** Reading the history file *)

(** X1. An exception of class [c] leaves [load_history] exactly when the
    history file opens for reading and either its bytes are not text,
    with [c] the class [UnicodeDecodeError], or the decoder raises an
    exception of class [c] that is neither a [JSONDecodeError] nor an
    [OSError]. When nothing of the kind holds, a value is returned; it
    is the empty mapping when the path leads nowhere, the file does not
    open, or the decoder's exception is caught. *)
Theorem load_history_raises_exactly_what_escapes m :
  let w := os m in
  let tf := tracking_file (self m) in
  (∀ c, (∃ e, load_history m = (Raise e, m) ∧ exn_cls e = c) ↔ load_escapes w tf c)
  ∧ ((∀ c, ¬ load_escapes w tf c) → ∃ v, load_history m = (Return v, m))
  ∧ (no_history w tf → load_history m = (Return (PDict []), m)).
Proof.
  intros w tf. rewrite load_history_cases. fold w tf. split; [|split].
  - intros c. split.
    + intros (e & Hrun & Hcls).
      destruct (files w !! tf) as [[|[] [text|]|]|] eqn:Hf; try discriminate.
      * destruct (loads text) as [v|e'] eqn:Hbad; [discriminate|].
        destruct (caught_by_load e') eqn:Hcaught; [discriminate|].
        injection Hrun as <-. subst c.
        exact (escapes_decoder w tf text e' Hf Hbad Hcaught).
      * injection Hrun as <-. subst c. exact (escapes_undecodable w tf Hf).
    + intros [Hf|text e Hf Hbad Hcaught].
      * rewrite Hf. eexists. split; reflexivity.
      * rewrite Hf, Hbad, Hcaught. exists e. split; reflexivity.
  - intros Hnone.
    destruct (files w !! tf) as [[|[] [text|]|]|] eqn:Hf; try (eexists; reflexivity).
    + destruct (loads text) as [v|e] eqn:Hbad; [eexists; reflexivity|].
      destruct (caught_by_load e) eqn:Hcaught; [eexists; reflexivity|].
      destruct (Hnone _ (escapes_decoder w tf text e Hf Hbad Hcaught)).
    + destruct (Hnone _ (escapes_undecodable w tf Hf)).
  - intros [Hf|Hf|body Hf|text e Hf Hbad Hcaught].
    + unfold exists_on_disk in Hf.
      destruct (files w !! tf) as [[|r body|]|]; try discriminate; reflexivity.
    + rewrite Hf. reflexivity.
    + rewrite Hf. reflexivity.
    + rewrite Hf, Hbad, Hcaught. reflexivity.
Qed.

Lemma load_history_reads_one_file m1 m2 :
  files (os m1) = files (os m2) →
  tracking_file (self m1) = tracking_file (self m2) →
  fst (load_history m1) = fst (load_history m2).
Proof.
  intros Hfiles Hpath. rewrite !load_history_cases. simpl.
  rewrite Hfiles, Hpath. reflexivity.
Qed.


(** X2. The three queries change nothing: whatever [load_history],
    [get_last_watched] and [list_videos] return or raise, the tracker
    object, the file system and the trace are as before. *)
Theorem queries_change_nothing m :
  snd (load_history m) = m
  ∧ (∀ video_file, snd (get_last_watched video_file m) = m)
  ∧ snd (list_videos m) = m.
Proof.
  split; [rewrite load_history_cases; reflexivity|]. split.
  - intros video_file. unfold get_last_watched, method_get. run.
    destruct (truthy video_file); [|reflexivity].
    destruct (history (self m)); reflexivity.
  - unfold list_videos. run. destruct m as [w t]. simpl.
    destruct (files w !! video_folder t) as [[| |]|]; reflexivity.
Qed.

Lemma get_last_watched_no_mapping m ident :
  ident ≠ "" →
  is_dict (history (self m)) = false →
  ∃ e, get_last_watched (Some ident) m = (Raise e, m)
       ∧ exn_cls e = AttributeError.
Proof.
  intros Hne Hshape. unfold get_last_watched, truthy, method_get. run.
  apply String.eqb_neq in Hne. rewrite Hne. simpl.
  destruct (history (self m)); try discriminate; eexists; split; reflexivity.
Qed.

(** X3. Asked for a non-empty identifier while the history is not a
    mapping, [get_last_watched] raises [AttributeError]; with no
    identifier it still returns the history as it is. *)
Theorem get_last_watched_needs_a_mapping m ident :
  ident ≠ "" →
  is_dict (history (self m)) = false →
  (∃ e, get_last_watched (Some ident) m = (Raise e, m)
        ∧ exn_cls e = AttributeError)
  ∧ get_last_watched None m = (Return (history (self m)), m).
Proof.
  intros Hne Hshape. split; [|reflexivity].
  apply get_last_watched_no_mapping; assumption.
Qed.


(** ** Writing the history file *)

Lemma save_history_effect m :
  let w := os m in
  let tf := tracking_file (self m) in
  save_history m =
    (Return tt,
     mkMachine
       (mkWorld (files_after_write w tf (dumps (history (self m))))
          (cwd w) (system w) (clock w) (ticks w) (write_fault w) (launch w)
          (trace w ++
           OpenW tf ::
           match write_error w tf with
           | Some msg => [Print ("Error saving tracking file: " +:+ msg)]
           | None => []
           end)%list)
       (self m)).
Proof.
  destruct m as [w t]. simpl.
  unfold save_history, write_error, files_after_write. run. simpl.
  destruct (files w !! tracking_file t) as [[|r body|]|] eqn:Hf;
    destruct (write_fault w (tracking_file t)) as [[msg|n msg]|] eqn:Hw; simpl.
  all: try rewrite Hw; simpl.
  all: unfold with_files, with_event, readable_bit; simpl.
  all: rewrite ?lookup_insert_eq, ?insert_insert_eq, ?Hf, <- ?app_assoc; simpl.
  all: reflexivity.
Qed.

Lemma track_video_as_save m f ts pct :
  let r := resolved (self m) f in
  exists_on_disk (os m) r = true →
  track_video f ts pct m =
    save_history
      (mkMachine (if is_None ts then with_tick (os m) else os m)
         (mkVideoTracker (video_folder (self m)) (tracking_file (self m))
            (PDict [(posixpath.basename r, watch_record (stamp (os m) ts) pct r)]))).
Proof.
  intros r Hex. unfold track_video. run.
  rewrite resolved_unfold. fold r. rewrite Hex. simpl.
  destruct ts; reflexivity.
Qed.

Lemma load_history_decodes m text v :
  files (os m) !! tracking_file (self m) = Some (File true (Text text)) →
  loads text = inl v →
  load_history m = (Return v, m).
Proof. intros Hf Hv. rewrite load_history_cases, Hf, Hv. reflexivity. Qed.

Lemma save_then_load_round_trip_aux m :
  write_error (os m) (tracking_file (self m)) = None →
  readable_bit (os m) (tracking_file (self m)) = true →
  loads (dumps (history (self m))) = inl (history (self m)) →
  ∃ m',
    save_history m = (Return tt, m')
    ∧ self m' = self m
    ∧ cwd (os m') = cwd (os m)
    ∧ ∀ h,
        load_history
          (mkMachine (os m')
             (mkVideoTracker (video_folder (self m')) (tracking_file (self m')) h))
        = (Return (history (self m)),
           mkMachine (os m')
             (mkVideoTracker (video_folder (self m')) (tracking_file (self m')) h)).
Proof.
  intros Hok Hread Hcodec. rewrite save_history_effect.
  eexists. split; [reflexivity|]. simpl. split; [reflexivity|]. split; [reflexivity|].
  intros h. apply (load_history_decodes _ (dumps (history (self m)))); [|exact Hcodec].
  simpl. unfold files_after_write, write_error in *.
  destruct (files (os m) !! tracking_file (self m)) as [[|r body|]|];
    destruct (write_fault (os m) (tracking_file (self m))) as [[msg|n msg]|];
    try discriminate; rewrite lookup_insert_eq, Hread; reflexivity.
Qed.

(** X5. A history written by [save_history] is read back by
    [load_history]: when the write succeeds, the file is readable and
    the codec decodes what it printed, loading returns the history that
    was saved. *)
Theorem save_then_load_round_trip m :
  let tf := tracking_file (self m) in
  write_error (os m) tf = None →
  readable_bit (os m) tf = true →
  loads (dumps (history (self m))) = inl (history (self m)) →
  ∃ m',
    save_history m = (Return tt, m')
    ∧ files (os m') !! tf = Some (File true (Text (dumps (history (self m)))))
    ∧ load_history m' = (Return (history (self m)), m').
Proof.
  intros tf Hok Hread Hcodec. rewrite save_history_effect. fold tf.
  eexists. split; [reflexivity|].
  assert (Hfile : files_after_write (os m) tf (dumps (history (self m))) !! tf
                  = Some (File true (Text (dumps (history (self m)))))).
  { unfold files_after_write, write_error in *.
    destruct (files (os m) !! tf) as [[|r body|]|];
      destruct (write_fault (os m) tf) as [[msg|n msg]|]; try discriminate;
      rewrite lookup_insert_eq, Hread; reflexivity. }
  split; [exact Hfile|].
  apply (load_history_decodes _ (dumps (history (self m)))); [exact Hfile|exact Hcodec].
Qed.

(** ** [track_video], whatever happens *)


(** X7. When the history file cannot be opened for writing,
    [track_video] still replaces the history in memory, prints the
    error, and leaves the file system as it was: what a later
    [load_history] reads is the old file, not the new history. *)
Theorem failed_open_leaves_disk_behind m f ts pct :
  let r := resolved (self m) f in
  exists_on_disk (os m) r = true →
  open_fails (os m) (tracking_file (self m)) = true →
  ∃ m' msg,
    track_video f ts pct m = (Return tt, m')
    ∧ history (self m') =
        PDict [(posixpath.basename r, watch_record (stamp (os m) ts) pct r)]
    ∧ files (os m') = files (os m)
    ∧ last (trace (os m')) = Some (Print ("Error saving tracking file: " +:+ msg))
    ∧ fst (load_history m') = fst (load_history m).
Proof.
  intros r Hex Hopen.
  rewrite (track_video_as_save m f ts pct Hex), save_history_effect. simpl.
  assert (Hopen' : open_fails (if is_None ts then with_tick (os m) else os m)
                     (tracking_file (self m)) = true)
    by (destruct ts; exact Hopen).
  destruct (failed_open_is_reported _ _ Hopen') as (msg & Hmsg).
  assert (Hfiles : files_after_write (if is_None ts then with_tick (os m) else os m)
                     (tracking_file (self m))
                     (dumps (PDict [(posixpath.basename r,
                                     watch_record (stamp (os m) ts) pct r)]))
                   = files (os m)).
  { rewrite (files_after_failed_open _ _ _ Hopen'). destruct ts; reflexivity. }
  eexists. exists msg. split; [reflexivity|]. simpl.
  split; [reflexivity|]. split; [exact Hfiles|]. split.
  - rewrite Hmsg.
    change (OpenW (tracking_file (self m))
            :: [Print ("Error saving tracking file: " +:+ msg)])
      with ([OpenW (tracking_file (self m))]
            ++ [Print ("Error saving tracking file: " +:+ msg)])%list.
    rewrite app_assoc. apply last_snoc.
  - apply load_history_reads_one_file; [exact Hfiles|reflexivity].
Qed.

(** X8. What [track_video] records survives a restart: when the write
    succeeds, the file is readable and the codec decodes what it
    printed, constructing a tracker for the same folder afterwards gives
    the tracker object that [track_video] left. *)
Theorem tracked_history_survives_restart m f ts pct folder :
  let r := resolved (self m) f in
  let tf := tracking_file (self m) in
  let entry := PDict [(posixpath.basename r, watch_record (stamp (os m) ts) pct r)] in
  anchored (self m) →
  posixpath.abspath (cwd (os m)) folder = video_folder (self m) →
  exists_on_disk (os m) r = true →
  write_error (os m) tf = None →
  readable_bit (os m) tf = true →
  loads (dumps entry) = inl entry →
  ∃ m',
    track_video f ts pct m = (Return tt, m')
    ∧ history (self m') = entry
    ∧ __init__ folder (os m') = (Return (self m'), os m').
Proof.
  intros r tf entry Hanch Hfolder Hex Hok Hread Hcodec.
  rewrite (track_video_as_save m f ts pct Hex). fold r entry.
  set (m1 := mkMachine (if is_None ts then with_tick (os m) else os m)
               (mkVideoTracker (video_folder (self m)) (tracking_file (self m)) entry)).
  assert (Hok1 : write_error (os m1) (tracking_file (self m1)) = None)
    by (simpl; destruct ts; exact Hok).
  assert (Hread1 : readable_bit (os m1) (tracking_file (self m1)) = true)
    by (simpl; destruct ts; exact Hread).
  destruct (save_then_load_round_trip_aux m1 Hok1 Hread1 Hcodec)
    as (m' & Hsave & Hself & Hcwd & Hload).
  exists m'. split; [exact Hsave|]. split; [rewrite Hself; reflexivity|].
  unfold __init__. rewrite Hcwd.
  replace (cwd (os m1)) with (cwd (os m)) by (simpl; destruct ts; reflexivity).
  rewrite Hfolder, <- Hanch.
  replace (mkMachine (os m')
             (mkVideoTracker (video_folder (self m)) (tracking_file (self m)) PNone))
    with (mkMachine (os m')
            (mkVideoTracker (video_folder (self m')) (tracking_file (self m')) PNone))
    by (rewrite Hself; reflexivity).
  rewrite Hload. simpl. rewrite Hself. reflexivity.
Qed.

(** ** [play_video] *)

(** X9. An exception of the launch that is no [Exception] (a
    [KeyboardInterrupt]) leaves [play_video] at once: nothing is
    printed or tracked, and the tracker object is as before. *)
Theorem play_video_propagates_interrupt m f ev e :
  let r := resolved (self m) f in
  launch_event (system (os m)) r = Some ev →
  launch (os m) ev = Some e →
  isinstance e Exception = false →
  ∃ m',
    play_video f m = (Raise e, m')
    ∧ self m' = self m
    ∧ files (os m') = files (os m)
    ∧ trace (os m') = (trace (os m) ++ [ev])%list.
Proof.
  destruct m as [w t]. simpl. intros Hev Hl Hexn.
  unfold play_video. run. rewrite resolved_unfold. simpl.
  unfold launch_event in Hev.
  set (r := resolved t f) in *.
  destruct (String.eqb (system w) "Darwin");
    [|destruct (String.eqb (system w) "Windows");
      [|destruct (String.eqb (system w) "Linux")]];
    try discriminate.
  all: injection Hev as <-; simpl; rewrite Hl, Hexn.
  all: eexists; repeat split.
Qed.

(** X10. In a tracker whose folder is absolute, [play_video] records
    the very path it handed to the player: the history becomes the one
    entry of that path, stamped with the time of the call and
    percentage 0, and the launch is in the trace. *)
Theorem play_video_tracks_the_launched_path m f :
  let r := resolved (self m) f in
  posixpath.isabs (video_folder (self m)) = true →
  launch_raises_only_exceptions (os m) r →
  exists_on_disk (os m) r = true →
  ∃ m',
    play_video f m = (Return tt, m')
    ∧ posixpath.isabs r = true
    ∧ history (self m') =
        PDict [(posixpath.basename r,
                watch_record (PStr (clock (os m) (ticks (os m)))) (PInt 0) r)]
    ∧ (∀ ev, launch_event (system (os m)) r = Some ev → ev ∈ trace (os m')).
Proof.
  intros r Hfolder Hexn Hex.
  pose proof (resolved_is_absolute (self m) f Hfolder) as Habs. fold r in Habs.
  rewrite (play_video_run m f Hexn). fold r.
  set (m1 := mkMachine (with_events (playback_events (os m) r) (os m)) (self m)).
  assert (Hr1 : resolved (self m1) r = r) by (apply resolved_absolute; exact Habs).
  assert (Hex1 : exists_on_disk (os m1) (resolved (self m1) r) = true)
    by (rewrite Hr1; exact Hex).
  rewrite (track_video_as_save m1 r PNone (PInt 0) Hex1), save_history_effect, Hr1.
  eexists. split; [reflexivity|]. split; [exact Habs|]. split; [reflexivity|].
  intros ev Hev. simpl. unfold playback_events. rewrite Hev.
  apply elem_of_app. left. apply elem_of_app. right. apply elem_of_cons. left.
  reflexivity.
Qed.

(** ** The constructor *)

Lemma init_cases folder w :
  let vf := posixpath.abspath (cwd w) folder in
  let tf := posixpath.join vf ".tracker.json" in
  __init__ folder w =
    (match files w !! tf with
     | Some (File true (Text text)) =>
         match loads text with
         | inl v => Return (mkVideoTracker vf tf v)
         | inr e =>
             if caught_by_load e then Return (mkVideoTracker vf tf (PDict []))
             else Raise e
         end
     | Some (File true Garbled) =>
         Raise (mkExn UnicodeDecodeError "invalid start byte")
     | _ => Return (mkVideoTracker vf tf (PDict []))
     end, w).
Proof.
  intros vf tf. unfold __init__. fold vf tf. rewrite load_history_cases.
  cbn [os self tracking_file].
  destruct (files w !! tf) as [[|[] [text|]|]|]; try reflexivity.
  destruct (loads text) as [v|e]; [reflexivity|].
  destruct (caught_by_load e); reflexivity.
Qed.

(** X11. Started in an absolute working directory, [__init__] makes the
    tracked folder absolute and puts the history file inside it; it only
    reads. An exception of class [c] leaves it exactly when one leaves
    [load_history] on that file: undecodable bytes, or an exception of
    the decoder that is not caught. Otherwise it returns a tracker,
    whose history is empty when the path of the history file leads
    nowhere. *)
Theorem init_anchors_the_tracker folder w :
  let vf := posixpath.abspath (cwd w) folder in
  let tf := posixpath.join vf ".tracker.json" in
  posixpath.isabs (cwd w) = true →
  posixpath.isabs vf = true
  ∧ snd (__init__ folder w) = w
  ∧ (∀ t, __init__ folder w = (Return t, w) →
          video_folder t = vf ∧ tracking_file t = tf ∧ anchored t)
  ∧ (∀ c, (∃ e, __init__ folder w = (Raise e, w) ∧ exn_cls e = c)
          ↔ load_escapes w tf c)
  ∧ ((∀ c, ¬ load_escapes w tf c) → ∃ t, __init__ folder w = (Return t, w))
  ∧ (exists_on_disk w tf = false →
     __init__ folder w = (Return (mkVideoTracker vf tf (PDict [])), w)).
Proof.
  intros vf tf Hcwd. split; [apply abspath_absolute; exact Hcwd|].
  rewrite init_cases. fold vf tf. cbn [snd].
  split; [reflexivity|]. split; [|split; [|split]].
  - intros t Hrun.
    destruct (files w !! tf) as [[|[] [text|]|]|]; try discriminate.
    2: destruct (loads text) as [v|e]; [|destruct (caught_by_load e); [|discriminate]].
    all: injection Hrun as <-; repeat split.
  - intros c. split.
    + intros (e & Hrun & Hcls).
      destruct (files w !! tf) as [[|[] [text|]|]|] eqn:Hf; try discriminate.
      * destruct (loads text) as [v|e'] eqn:Hbad; [discriminate|].
        destruct (caught_by_load e') eqn:Hcaught; [discriminate|].
        injection Hrun as <-. subst c.
        exact (escapes_decoder w tf text e' Hf Hbad Hcaught).
      * injection Hrun as <-. subst c. exact (escapes_undecodable w tf Hf).
    + intros [Hf|text e Hf Hbad Hcaught].
      * rewrite Hf. eexists. split; reflexivity.
      * rewrite Hf, Hbad, Hcaught. exists e. split; reflexivity.
  - intros Hnone.
    destruct (files w !! tf) as [[|[] [text|]|]|] eqn:Hf; try (eexists; reflexivity).
    + destruct (loads text) as [v|e] eqn:Hbad; [eexists; reflexivity|].
      destruct (caught_by_load e) eqn:Hcaught; [eexists; reflexivity|].
      destruct (Hnone _ (escapes_decoder w tf text e Hf Hbad Hcaught)).
    + destruct (Hnone _ (escapes_undecodable w tf Hf)).
  - unfold exists_on_disk.
    destruct (files w !! tf) as [[|r body|]|]; try discriminate; reflexivity.
Qed.

(** ** From the listing to the history *)

(** X12. A name that [list_videos] returns and that leads to a file
    is tracked under that very name: after [track_video] of the name
    the history is the one entry keyed by the name, which records the
    folder joined with it, and [get_last_watched] of the name returns
    the record. *)
Theorem listed_video_can_be_tracked m videos name ts pct :
  let folder := video_folder (self m) in
  let full_path := posixpath.join folder name in
  let m' := snd (track_video name ts pct m) in
  folder ≠ "" →
  list_videos m = (Return videos, m) →
  name ∈ videos →
  exists_on_disk (os m) full_path = true →
  history (self m') = PDict [(name, watch_record (stamp (os m) ts) pct full_path)]
  ∧ get_last_watched (Some name) m'
    = (Return (watch_record (stamp (os m) ts) pct full_path), m').
Proof.
  intros folder full_path m' Hfolder Hlist Hin Hthere. unfold m'.
  apply list_videos_inv in Hlist as [_ ->].
  apply list_elem_of_In, filter_In in Hin as [Hin _]. apply list_elem_of_In in Hin.
  apply dir_listing_plain in Hin as [Hname Hsep].
  assert (Hres : resolved (self m) name = full_path).
  { unfold resolved. rewrite (no_separator_not_absolute name Hname Hsep). reflexivity. }
  assert (Hex : exists_on_disk (os m) (resolved (self m) name) = true)
    by (rewrite Hres; exact Hthere).
  assert (Hbase : posixpath.basename full_path = name)
    by (apply basename_join; assumption).
  rewrite (track_video_as_save m name ts pct Hex), save_history_effect, Hres, Hbase.
  split; [reflexivity|].
  unfold get_last_watched, truthy, method_get. run. simpl.
  apply String.eqb_neq in Hname. rewrite Hname. simpl.
  unfold posixpath.basename, Str.slice_from. rewrite Hsep. simpl.
  rewrite String.eqb_refl. reflexivity.
Qed.

End Methods.

(** * Properties of [main] *)

(** ** Sorting *)

Lemma insert_sorted_elem x y l : y ∈ insert_sorted x l ↔ y = x ∨ y ∈ l.
Proof.
  induction l as [|z l IH]; simpl.
  - rewrite list_elem_of_singleton. split; [auto|intros [?|Hin]; [auto|inversion Hin]].
  - destruct (String.leb x z).
    + rewrite elem_of_cons. reflexivity.
    + rewrite !elem_of_cons, IH. tauto.
Qed.

Lemma sort_elem y l : y ∈ sort l ↔ y ∈ l.
Proof.
  induction l as [|x l IH]; simpl; [reflexivity|].
  rewrite insert_sorted_elem, elem_of_cons, IH. reflexivity.
Qed.

Lemma insert_sorted_permutation x l : insert_sorted x l ≡ₚ x :: l.
Proof.
  induction l as [|y l IH]; simpl; [reflexivity|].
  destruct (String.leb x y); [reflexivity|].
  rewrite IH. apply Permutation_swap.
Qed.

Lemma sort_permutation l : sort l ≡ₚ l.
Proof.
  induction l as [|x l IH]; simpl; [reflexivity|].
  rewrite insert_sorted_permutation, IH. reflexivity.
Qed.

Lemma insert_sorted_ascending x l :
  Sorted (λ a b, String.leb a b = true) l →
  Sorted (λ a b, String.leb a b = true) (insert_sorted x l).
Proof.
  induction 1 as [|y l Hsorted IH Hhead]; simpl.
  - repeat constructor.
  - destruct (String.leb x y) eqn:Hxy.
    + constructor; [constructor; assumption|constructor; exact Hxy].
    + constructor; [exact IH|].
      assert (Hyx : String.leb y x = true)
        by (destruct (String.leb_total x y) as [Hle|Hle]; [congruence|exact Hle]).
      destruct Hhead as [|z l' Hyz]; simpl; [constructor; exact Hyx|].
      destruct (String.leb x z); constructor; assumption.
Qed.

Lemma sort_ascending l : Sorted (λ a b, String.leb a b = true) (sort l).
Proof.
  induction l as [|x l IH]; simpl; [constructor|].
  apply insert_sorted_ascending. exact IH.
Qed.

Lemma insert_sorted_length x l : length (insert_sorted x l) = Datatypes.S (length l).
Proof.
  induction l as [|z l IH]; simpl; [reflexivity|].
  destruct (String.leb x z); simpl; [reflexivity|]. rewrite IH. reflexivity.
Qed.

Lemma sort_length l : length (sort l) = length l.
Proof.
  induction l as [|x l IH]; simpl; [reflexivity|].
  rewrite insert_sorted_length, IH. reflexivity.
Qed.

Lemma index_in_range n len :
  ((0 <=? n - 1) && (n - 1 <? Z.of_nat len))%bool
  = ((1 <=? n) && (n <=? Z.of_nat len))%bool.
Proof.
  apply eq_true_iff_eq. rewrite !andb_true_iff, !Z.leb_le, Z.ltb_lt. lia.
Qed.

Section MainProperties.

Context `{Json} `{Unicode} `{Builtins}.

(** ** One turn of the loop *)


Lemma turn_quit videos choice rest s :
  lower choice = "q" →
  turn videos (choice :: rest) s = (Done Break, prompting choice_prompt s).
Proof.
  intros Hq. unfold turn, select. step. simpl. rewrite Hq. reflexivity.
Qed.

Lemma turn_rejected videos choice rest s :
  rejected videos choice = true →
  turn videos (choice :: rest) s
  = (Done Continue, printing [rejection choice] (prompting choice_prompt s)).
Proof.
  unfold rejected, rejection. intros Hrej.
  apply andb_true_iff in Hrej as [Hq Hn]. apply negb_true_iff in Hq.
  unfold turn, select. step. simpl. rewrite Hq.
  destruct (py_int choice) as [n|]; simpl.
  - apply negb_true_iff in Hn.
    rewrite (index_in_range n (length videos)), Hn. reflexivity.
  - reflexivity.
Qed.

Lemma menu_loop_skips videos bad rest s :
  forallb (rejected videos) bad = true →
  menu_loop videos (bad ++ rest) s = menu_loop videos rest (skipping bad s).
Proof.
  revert s. induction bad as [|choice bad IH]; intros s Hbad; [reflexivity|].
  simpl in Hbad. apply andb_true_iff in Hbad as [Hchoice Hbad].
  simpl. unfold mbind at 1, Prog_bind at 1.
  rewrite (turn_rejected videos choice (bad ++ rest) s Hchoice).
  apply IH. exact Hbad.
Qed.

(** ** The menu *)

Lemma with_event_as_more ev evs w :
  with_events evs (with_event ev w) = with_events (ev :: evs) w.
Proof. unfold with_events, with_event. simpl. rewrite <- app_assoc. reflexivity. Qed.

Lemma with_events_nil w : with_events [] w = w.
Proof. destruct w. unfold with_events. simpl. rewrite app_nil_r. reflexivity. Qed.

Lemma with_events_app a b w :
  with_events b (with_events a w) = with_events (a ++ b)%list w.
Proof. unfold with_events. simpl. rewrite app_assoc. reflexivity. Qed.

Lemma basename_plain name : plain_name name → posixpath.basename name = name.
Proof.
  intros [_ Hsep]. unfold posixpath.basename, Str.slice_from. rewrite Hsep.
  reflexivity.
Qed.

Lemma get_last_watched_plain m name items :
  plain_name name → history (self m) = PDict items →
  get_last_watched (Some name) m = (Return (dict_get name items), m).
Proof.
  intros Hplain Hhist. unfold get_last_watched, truthy, method_get. run.
  destruct Hplain as [Hne Hsep]. apply String.eqb_neq in Hne. rewrite Hne, Hhist.
  simpl. rewrite (basename_plain name); [reflexivity|].
  split; [apply String.eqb_neq; exact Hne|exact Hsep].
Qed.

Lemma print_menu_run videos i m items :
  history (self m) = PDict items →
  Forall plain_name videos →
  print_menu i videos m
  = (Return tt,
     mkMachine (with_events (map Print (menu_lines i videos items)) (os m)) (self m)).
Proof.
  intros Hhist Hplain. revert i m Hhist.
  induction Hplain as [|video videos Hvideo _ IH]; intros i m Hhist.
  - simpl. rewrite with_events_nil. destruct m; reflexivity.
  - cbn [print_menu menu_lines map].
    unfold mbind at 1, M_bind at 1.
    rewrite (get_last_watched_plain m video items Hvideo Hhist).
    unfold mbind at 1, M_bind at 1, print, emit.
    cbv [mbind M_bind get_os put_os]. simpl.
    match goal with
    | |- print_menu _ _ (mkMachine ?w _) = _ =>
        rewrite (IH (i + 1) (mkMachine w (self m)) Hhist)
    end.
    simpl. rewrite with_event_as_more. reflexivity.
Qed.

Lemma print_menu_crash video rest i m :
  plain_name video → is_dict (history (self m)) = false →
  ∃ e, print_menu i (video :: rest) m = (Raise e, m) ∧ exn_cls e = AttributeError.
Proof.
  intros [Hne _] Hshape.
  destruct (get_last_watched_no_mapping m video Hne Hshape) as (e & Hget & Hcls).
  exists e. split; [|exact Hcls].
  cbn [print_menu]. unfold mbind at 1, M_bind at 1. rewrite Hget. reflexivity.
Qed.

(** ** A selection *)

Lemma launches_app a b : launches (a ++ b)%list = (launches a ++ launches b)%list.
Proof.
  unfold launches. induction a as [|ev a IH]; simpl; [reflexivity|].
  destruct (is_launch ev); simpl; rewrite IH; reflexivity.
Qed.

Lemma launches_of_prints lines : launches (map Print lines) = [].
Proof. induction lines as [|line lines IH]; [reflexivity|exact IH]. Qed.

Lemma launches_of_playback w path :
  launches (playback_events w path) = option_list (launch_event (system w) path).
Proof.
  unfold playback_events, launch_event.
  destruct (String.eqb (system w) "Darwin");
    [|destruct (String.eqb (system w) "Windows");
      [|destruct (String.eqb (system w) "Linux")]]; simpl;
    try reflexivity.
  all: match goal with
       | |- context [launch ?w0 ?ev] => destruct (launch w0 ev)
       end; reflexivity.
Qed.

Lemma writes_app a b : writes (a ++ b)%list = (writes a ++ writes b)%list.
Proof.
  unfold writes. induction a as [|ev a IH]; simpl; [reflexivity|].
  destruct (is_write ev); simpl; rewrite IH; reflexivity.
Qed.

Lemma writes_of_prints lines : writes (map Print lines) = [].
Proof. induction lines as [|line lines IH]; [reflexivity|exact IH]. Qed.

Lemma writes_of_playback w path : writes (playback_events w path) = [].
Proof.
  unfold playback_events, launch_event.
  destruct (String.eqb (system w) "Darwin");
    [|destruct (String.eqb (system w) "Windows");
      [|destruct (String.eqb (system w) "Linux")]]; simpl;
    try reflexivity.
  all: match goal with
       | |- context [launch ?w0 ?ev] => destruct (launch w0 ev)
       end; reflexivity.
Qed.

Lemma absolute_not_empty p : posixpath.isabs p = true → p ≠ "".
Proof. intros Habs ->. discriminate. Qed.

Lemma play_then_query m video :
  let folder := video_folder (self m) in
  let full_path := posixpath.join folder video in
  posixpath.isabs folder = true →
  plain_name video →
  exists_on_disk (os m) full_path = true →
  launch_raises_only_exceptions (os m) full_path →
  ∃ m1,
    play_video video m = (Return tt, m1)
    ∧ self m1 = mkVideoTracker folder (tracking_file (self m))
                  (PDict [(video, played_record (os m) full_path)])
    ∧ get_last_watched (Some video) m1
      = (Return (played_record (os m) full_path), m1)
    ∧ launches (trace (os m1))
      = (launches (trace (os m))
         ++ option_list (launch_event (system (os m)) full_path))%list
    ∧ writes (trace (os m1))
      = (writes (trace (os m)) ++ [OpenW (tracking_file (self m))])%list.
Proof.
  intros folder full_path Hfolder Hplain Hex Hexn.
  assert (Hr : resolved (self m) video = full_path).
  { unfold resolved. destruct Hplain as [Hne Hsep].
    rewrite (no_separator_not_absolute video Hne Hsep). reflexivity. }
  assert (Habs : posixpath.isabs full_path = true)
    by (apply join_absolute; exact Hfolder).
  assert (Hbase : posixpath.basename full_path = video).
  { destruct Hplain as [Hne Hsep].
    apply basename_join; [apply absolute_not_empty; exact Hfolder|exact Hne|exact Hsep]. }
  rewrite <- Hr in Hexn. rewrite (play_video_run m video Hexn), Hr.
  set (m0 := mkMachine (with_events (playback_events (os m) full_path) (os m)) (self m)).
  assert (Hr0 : resolved (self m0) full_path = full_path)
    by (apply resolved_absolute; exact Habs).
  assert (Hex0 : exists_on_disk (os m0) (resolved (self m0) full_path) = true)
    by (rewrite Hr0; exact Hex).
  rewrite (track_video_as_save m0 full_path PNone (PInt 0) Hex0), save_history_effect,
    Hr0, Hbase.
  eexists. split; [reflexivity|]. split; [reflexivity|]. split; [|split].
  - erewrite get_last_watched_plain; [|exact Hplain|reflexivity].
    simpl. rewrite String.eqb_refl. reflexivity.
  - simpl. rewrite !launches_app, launches_of_playback.
    destruct (write_error _ _); simpl; rewrite app_nil_r; reflexivity.
  - simpl. rewrite !writes_app, writes_of_playback, app_nil_r.
    destruct (write_error _ _); reflexivity.
Qed.

Lemma menu_loop_selects videos choice n rest s :
  let m := machine s in
  let video := nth (Z.to_nat (n - 1)) videos "" in
  let full_path := posixpath.join (video_folder (self m)) video in
  lower choice ≠ "q" →
  py_int choice = Some n →
  1 ≤ n ≤ Z.of_nat (length videos) →
  posixpath.isabs (video_folder (self m)) = true →
  plain_name video →
  exists_on_disk (os m) full_path = true →
  launch_raises_only_exceptions (os m) full_path →
  ∃ s',
    menu_loop videos (choice :: rest) s = (Done rest, s')
    ∧ self (machine s')
      = mkVideoTracker (video_folder (self m)) (tracking_file (self m))
          (PDict [(video, played_record (os m) full_path)])
    ∧ launches (trace (os (machine s')))
      = (launches (trace (os m))
         ++ option_list (launch_event (system (os m)) full_path))%list
    ∧ writes (trace (os (machine s')))
      = (writes (trace (os m)) ++ [OpenW (tracking_file (self m))])%list
    ∧ last (trace (os (machine s')))
      = Some (Print (dumps_indent2 (played_record (os m) full_path))).
Proof.
  intros m video full_path Hq Hn Hrange Hfolder Hplain Hex Hexn.
  set (m_playing :=
         mkMachine (with_event (Print (newline +:+ "Playing: " +:+ video)) (os m))
           (self m)).
  destruct (play_then_query m_playing video Hfolder Hplain Hex Hexn)
    as (m1 & Hplay & Hself & Hget & Hlaunch & Hwrite).
  cbn [menu_loop]. unfold mbind at 1, Prog_bind at 1.
  unfold turn, select. step. simpl.
  apply String.eqb_neq in Hq. rewrite Hq, Hn.
  replace ((0 <=? n - 1) && (n - 1 <? Z.of_nat (length videos)))%bool with true
    by (symmetry; rewrite index_in_range; apply andb_true_iff;
        rewrite !Z.leb_le; lia).
  fold video.
  match goal with
  | |- context [play_video video ?x] => change x with m_playing
  end.
  rewrite Hplay. cbv beta iota. cbn [machine asked]. rewrite Hget. simpl.
  eexists. split; [reflexivity|]. simpl.
  split; [exact Hself|]. split; [|split].
  - rewrite !launches_app. cbn [launches List.filter is_launch].
    rewrite !app_nil_r, Hlaunch. unfold m_playing. cbn [os trace with_event].
    rewrite launches_app. cbn [launches List.filter is_launch].
    rewrite app_nil_r. reflexivity.
  - rewrite !writes_app. cbn [writes List.filter is_write].
    rewrite !app_nil_r, Hwrite. unfold m_playing. cbn [os trace with_event self].
    rewrite writes_app. cbn [writes List.filter is_write].
    rewrite app_nil_r. reflexivity.
  - apply last_snoc.
Qed.

(** ** Rejected lines *)

Lemma skipping_effect bad s :
  machine (skipping bad s)
  = mkMachine (with_events (map (λ choice, Print (rejection choice)) bad)
                 (os (machine s)))
      (self (machine s))
  ∧ map snd (asked (skipping bad s))
    = (map snd (asked s) ++ replicate (length bad) choice_prompt)%list.
Proof.
  revert s. induction bad as [|choice bad IH]; intros s; simpl.
  - rewrite with_events_nil, app_nil_r. destruct s as [a [w t]]; split; reflexivity.
  - destruct (IH (printing [rejection choice] (prompting choice_prompt s)))
      as (Hmachine & Hasked).
    rewrite Hmachine, Hasked. simpl.
    rewrite with_events_app, map_app, <- !app_assoc. split; reflexivity.
Qed.

(** ** From [main] to the loop *)

Lemma init_inv folder w t w' :
  __init__ folder w = (Return t, w') →
  w' = w
  ∧ video_folder t = posixpath.abspath (cwd w) folder
  ∧ tracking_file t = posixpath.join (posixpath.abspath (cwd w) folder) ".tracker.json".
Proof.
  rewrite init_cases.
  destruct (files w !! _) as [[|[] [text|]|]|]; try discriminate.
  2: destruct (loads text) as [v|e]; [|destruct (caught_by_load e); [|discriminate]].
  all: intros [= <- <-]; repeat split.
Qed.


Lemma listed_names_are_plain m found :
  list_videos m = (Return found, m) → Forall plain_name (sort found).
Proof.
  intros Hlist. apply list_videos_inv in Hlist as [_ ->].
  apply Forall_forall. intros name Hin.
  apply sort_elem, list_elem_of_In, filter_In in Hin as [Hin _].
  apply list_elem_of_In, dir_listing_names in Hin as (p & _ & Hchild).
  exact (child_name_plain _ _ _ Hchild).
Qed.

Lemma session_run lines s items found :
  history (self (machine s)) = PDict items →
  list_videos (machine s) = (Return found, machine s) →
  session lines s
  = menu_loop (sort found) lines
      (printing ("Contents:" :: menu_lines 1 (sort found) items) s).
Proof.
  intros Hhist Hlist.
  pose proof (listed_names_are_plain _ _ Hlist) as Hplain.
  apply list_videos_inv in Hlist as [Hdir Hfound].
  unfold session. unfold mbind at 1, Prog_bind at 1. step. simpl.
  rewrite list_videos_run by exact Hdir. simpl.
  change (dir_listing (with_event (Print "Contents:") (os (machine s)))
            (video_folder (self (machine s))))
    with (dir_listing (os (machine s)) (video_folder (self (machine s)))).
  rewrite <- Hfound.
  match goal with
  | |- context [print_menu 1 (sort found) ?m0] =>
      rewrite (print_menu_run (sort found) 1 m0 items Hhist Hplain)
  end.
  simpl. rewrite with_event_as_more. reflexivity.
Qed.

Lemma main_run folder w t lines :
  __init__ folder w = (Return t, w) →
  main (folder :: lines) w
  = (let (r, s) :=
       session lines
         (mkSession [(length (trace w), folder_prompt)] (mkMachine w t)) in
     mkExit r (asked s) (os (machine s)) (Some (self (machine s)))).
Proof. intros Hinit. unfold main. rewrite Hinit. reflexivity. Qed.

Lemma menu_loop_quit videos choice rest s :
  lower choice = "q" →
  menu_loop videos (choice :: rest) s = (Done rest, prompting choice_prompt s).
Proof.
  intros Hq. cbn [menu_loop]. unfold mbind at 1, Prog_bind at 1.
  rewrite (turn_quit videos choice rest s Hq). reflexivity.
Qed.

Lemma menu_loop_at_end_of_input videos s :
  menu_loop videos [] s = (Failed EOFError, prompting choice_prompt s).
Proof. reflexivity. Qed.

(** ** What [main] does *)

(** X14. Lines that select nothing change nothing. After any number
    of rejected lines, each answered by its message, [q] or [Q] ends
    [main] with the rest of the input unread, and the end of the input
    ends it with [EOFError]; either way the tracker is the one the
    constructor built, the file system is untouched, and the output is
    the menu, one line per video in ascending order, and the messages. *)
Theorem main_without_selection folder w t items found bad :
  let shown :=
    map Print ("Contents:" :: menu_lines 1 (sort found) items ++ map rejection bad) in
  let asks := folder_prompt :: replicate (Datatypes.S (length bad)) choice_prompt in
  opens folder w t items found →
  forallb (rejected (sort found)) bad = true →
  (sort found ≡ₚ found ∧ Sorted (λ a b, String.leb a b = true) (sort found))
  ∧ (∀ q rest,
     lower q = "q" →
     let e := main (folder :: bad ++ q :: rest) w in
     status e = Done rest ∧ tracker e = Some t
     ∧ files (world e) = files w
     ∧ trace (world e) = (trace w ++ shown)%list
     ∧ map snd (prompts e) = asks)
  ∧ (let e := main (folder :: bad) w in
     status e = Failed EOFError ∧ tracker e = Some t
     ∧ files (world e) = files w
     ∧ trace (world e) = (trace w ++ shown)%list
     ∧ map snd (prompts e) = asks).
Proof.
  intros shown asks (Hcwd & Hinit & Hhist & Hlist) Hbad.
  set (s0 := mkSession [(length (trace w), folder_prompt)] (mkMachine w t)).
  set (s1 := printing ("Contents:" :: menu_lines 1 (sort found) items) s0).
  destruct (skipping_effect bad s1) as (Hmachine & Hasked).
  assert (Hshown : (trace w ++ map Print ("Contents:" :: menu_lines 1 (sort found) items)
                    ++ map (λ choice, Print (rejection choice)) bad)%list
                   = (trace w ++ shown)%list).
  { unfold shown. cbn [map]. rewrite List.map_app, List.map_map. reflexivity. }
  assert (Hasks : (map snd (asked s1) ++ replicate (length bad) choice_prompt
                   ++ [choice_prompt])%list = asks).
  { unfold asks. rewrite replicate_S_end. reflexivity. }
  split; [split; [apply sort_permutation|apply sort_ascending]|].
  split.
  - intros q rest Hq e. unfold e.
    rewrite (main_run folder w t _ Hinit). fold s0.
    rewrite (session_run (bad ++ q :: rest) s0 items found Hhist Hlist). fold s1.
    rewrite (menu_loop_skips _ bad (q :: rest) s1 Hbad).
    rewrite (menu_loop_quit _ q rest _ Hq).
    cbn [status tracker world prompts prompting asked machine].
    rewrite Hmachine, map_app, Hasked. cbn [os self files trace with_events map snd].
    rewrite <- !app_assoc.
    split; [reflexivity|]. split; [reflexivity|]. split; [reflexivity|].
    split; [|exact Hasks].
    unfold s1, printing, s0. cbn [machine os trace with_events].
    rewrite <- app_assoc. exact Hshown.
  - intros e. unfold e.
    rewrite (main_run folder w t _ Hinit). fold s0.
    rewrite (session_run bad s0 items found Hhist Hlist). fold s1.
    pose proof (menu_loop_skips (sort found) bad [] s1 Hbad) as Hskip.
    rewrite app_nil_r in Hskip. rewrite Hskip, menu_loop_at_end_of_input.
    cbn [status tracker world prompts prompting asked machine].
    rewrite Hmachine, map_app, Hasked. cbn [os self files trace with_events map snd].
    rewrite <- !app_assoc.
    split; [reflexivity|]. split; [reflexivity|]. split; [reflexivity|].
    split; [|exact Hasks].
    unfold s1, printing, s0. cbn [machine os trace with_events].
    rewrite <- app_assoc. exact Hshown.
Qed.

(** X15. A valid number plays that video and ends [main]. After any
    number of rejected lines, the line whose number [n] is between 1
    and the number of videos selects the [n]-th name in ascending
    order. When that name leads to a file, [main] starts the player on
    it once, leaves a history of that one entry, prints the record last,
    and returns without reading the rest of the input; the one file it
    opens for writing is the history file. *)
Theorem main_plays_the_selection folder w t items found bad choice n rest :
  let video := nth (Z.to_nat (n - 1)) (sort found) "" in
  let full_path := posixpath.join (video_folder t) video in
  let e := main (folder :: bad ++ choice :: rest) w in
  opens folder w t items found →
  forallb (rejected (sort found)) bad = true →
  lower choice ≠ "q" →
  py_int choice = Some n →
  1 ≤ n ≤ Z.of_nat (length found) →
  exists_on_disk w full_path = true →
  launch_raises_only_exceptions w full_path →
  video ∈ found
  ∧ status e = Done rest
  ∧ tracker e
    = Some (mkVideoTracker (video_folder t) (tracking_file t)
              (PDict [(video, played_record w full_path)]))
  ∧ launches (trace (world e))
    = (launches (trace w) ++ option_list (launch_event (system w) full_path))%list
  ∧ writes (trace (world e)) = (writes (trace w) ++ [OpenW (tracking_file t)])%list
  ∧ last (trace (world e)) = Some (Print (dumps_indent2 (played_record w full_path))).
Proof.
  intros video full_path e (Hcwd & Hinit & Hhist & Hlist) Hbad Hq Hn Hrange Hex Hexn.
  destruct (init_inv _ _ _ _ Hinit) as (_ & Hfolder & _).
  assert (Habs : posixpath.isabs (video_folder t) = true)
    by (rewrite Hfolder; apply abspath_absolute; exact Hcwd).
  assert (Hin : video ∈ found).
  { apply sort_elem, list_elem_of_In, nth_In. rewrite sort_length. lia. }
  assert (Hplain : plain_name video).
  { pose proof (listed_names_are_plain _ _ Hlist) as Hall.
    rewrite Forall_forall in Hall. apply Hall, sort_elem. exact Hin. }
  split; [exact Hin|].
  set (s0 := mkSession [(length (trace w), folder_prompt)] (mkMachine w t)).
  set (s1 := printing ("Contents:" :: menu_lines 1 (sort found) items) s0).
  destruct (skipping_effect bad s1) as (Hmachine & _).
  assert (Hlen : 1 ≤ n ≤ Z.of_nat (length (sort found)))
    by (rewrite sort_length; exact Hrange).
  destruct (menu_loop_selects (sort found) choice n rest (skipping bad s1))
    as (s' & Hloop & Hself & Hlaunch & Hwrite & Hlast);
    try assumption; try (rewrite Hmachine; assumption).
  unfold e. rewrite (main_run folder w t _ Hinit). fold s0.
  rewrite (session_run (bad ++ choice :: rest) s0 items found Hhist Hlist). fold s1.
  rewrite (menu_loop_skips _ bad (choice :: rest) s1 Hbad), Hloop.
  cbn [status tracker world].
  rewrite Hmachine in Hself, Hlaunch, Hwrite, Hlast.
  cbn [os self machine s1 s0 printing with_events trace files system clock ticks]
    in Hself, Hlaunch, Hwrite, Hlast.
  split; [reflexivity|]. split; [rewrite Hself; reflexivity|]. split; [|split].
  - rewrite Hlaunch, !launches_app.
    replace (launches (map Print ("Contents:" :: menu_lines 1 (sort found) items)))
      with (@nil event) by (symmetry; apply launches_of_prints).
    replace (launches (map (λ choice0, Print (rejection choice0)) bad))
      with (@nil event)
      by (symmetry; rewrite <- List.map_map; apply launches_of_prints).
    rewrite !app_nil_r. reflexivity.
  - rewrite Hwrite, !writes_app.
    replace (writes (map Print ("Contents:" :: menu_lines 1 (sort found) items)))
      with (@nil event) by (symmetry; apply writes_of_prints).
    replace (writes (map (λ choice0, Print (rejection choice0)) bad))
      with (@nil event)
      by (symmetry; rewrite <- List.map_map; apply writes_of_prints).
    rewrite !app_nil_r. reflexivity.
  - exact Hlast.
Qed.

(** X16. A history that is no mapping stops [main] at the menu: when
    the constructor loaded a value that is not a mapping and the folder
    holds a video, [main] prints [Contents:] and fails with
    [AttributeError] before it asks for a choice. *)
Theorem main_crashes_on_a_history_that_is_no_mapping folder w t found lines :
  let e := main (folder :: lines) w in
  __init__ folder w = (Return t, w) →
  is_dict (history t) = false →
  list_videos (mkMachine w t) = (Return found, mkMachine w t) →
  found ≠ [] →
  (∃ x, status e = Failed (Uncaught x) ∧ exn_cls x = AttributeError)
  ∧ trace (world e) = (trace w ++ [Print "Contents:"])%list
  ∧ map snd (prompts e) = [folder_prompt]
  ∧ files (world e) = files w.
Proof.
  intros e Hinit Hshape Hlist Hfound.
  pose proof (listed_names_are_plain _ _ Hlist) as Hplain.
  destruct (sort found) as [|video rest] eqn:Hsort.
  { apply (f_equal length) in Hsort. rewrite sort_length in Hsort.
    destruct found; [congruence|discriminate]. }
  apply Forall_cons in Hplain as [Hvideo _].
  apply list_videos_inv in Hlist as [Hdir Hfiltered].
  cbn [os self] in Hdir, Hfiltered.
  set (m0 := mkMachine (with_event (Print "Contents:") w) t).
  destruct (print_menu_crash video rest 1 m0 Hvideo Hshape) as (x & Hcrash & Hcls).
  unfold e. rewrite (main_run folder w t _ Hinit).
  unfold session. unfold mbind at 1, Prog_bind at 1. step. simpl.
  rewrite (list_videos_run (mkMachine (with_event (Print "Contents:") w) t) Hdir).
  simpl.
  change (dir_listing (with_event (Print "Contents:") w) (video_folder t))
    with (dir_listing w (video_folder t)).
  rewrite <- Hfiltered, Hsort. fold m0. rewrite Hcrash. simpl.
  split; [exists x; split; [reflexivity|exact Hcls]|]. repeat split.
Qed.

(** X17. A folder that is no directory stops [main] as well. Where
    only directories hold entries, no history file lies beneath such a
    folder: the constructor returns a tracker with an empty history,
    [main] prints [Contents:], and the [OSError] of [list_videos] ends
    it before any choice is asked for. *)
Theorem main_needs_a_directory folder w lines :
  let vf := posixpath.abspath (cwd w) folder in
  let tf := posixpath.join vf ".tracker.json" in
  let e := main (folder :: lines) w in
  no_nul vf = true →
  files w !! vf ≠ Some Dir →
  only_directories_hold w vf →
  __init__ folder w = (Return (mkVideoTracker vf tf (PDict [])), w)
  ∧ (∃ x, status e = Failed (Uncaught x) ∧ isinstance x OSError = true)
  ∧ tracker e = Some (mkVideoTracker vf tf (PDict []))
  ∧ trace (world e) = (trace w ++ [Print "Contents:"])%list
  ∧ files (world e) = files w
  ∧ map snd (prompts e) = [folder_prompt].
Proof.
  intros vf tf e _ Hnot Htree.
  assert (Hnone : exists_on_disk w tf = false).
  { destruct (exists_on_disk w tf) eqn:Hex; [|reflexivity].
    destruct (Hnot (Htree ".tracker.json" eq_refl Hex)). }
  assert (Hinit : __init__ folder w = (Return (mkVideoTracker vf tf (PDict [])), w)).
  { rewrite init_cases. fold vf tf. unfold exists_on_disk in Hnone.
    destruct (files w !! tf) as [[|r body|]|]; try discriminate; reflexivity. }
  split; [exact Hinit|].
  unfold e. rewrite (main_run folder w _ _ Hinit).
  unfold session. unfold mbind at 1, Prog_bind at 1. step. simpl.
  unfold list_videos. run. simpl.
  destruct (files w !! vf) as [[|r body|]|]; [congruence|..];
    simpl; (split; [eexists; split; reflexivity|repeat split]).
Qed.

(** X18. A history file whose bytes are not text stops [main] before
    anything is printed: the [UnicodeDecodeError] of the constructor is
    not caught. *)
Theorem main_stops_at_an_undecodable_history folder w lines :
  let e := main (folder :: lines) w in
  files w !! posixpath.join (posixpath.abspath (cwd w) folder) ".tracker.json"
  = Some (File true Garbled) →
  (∃ x, status e = Failed (Uncaught x) ∧ exn_cls x = UnicodeDecodeError)
  ∧ tracker e = None
  ∧ world e = w
  ∧ map snd (prompts e) = [folder_prompt].
Proof.
  intros e Hfile. unfold e, main, __init__.
  rewrite load_history_cases. cbn [os self tracking_file fst snd].
  rewrite Hfile. simpl.
  split; [eexists; split; reflexivity|repeat split].
Qed.

(** ** Whatever the input *)



















End MainProperties.

(** * The further properties on the sample folder *)

Lemma load_history_raises_exactly_what_escapes_witness :
  let undecodable := demo.with_history_file (File true Garbled) in
  let nested := demo.with_history_file (File true (Text demo2.brackets)) in
  let broken := demo.with_history_file (File true (Text "{oops")) in
  (∃ e, @load_history json.codec undecodable = (Raise e, undecodable)
        ∧ exn_cls e = UnicodeDecodeError)
  ∧ (∃ e, @load_history demo2.bounded nested = (Raise e, nested)
          ∧ exn_cls e = RecursionError)
  ∧ @load_history json.codec broken = (Return (PDict []), broken).
Proof.
  intros undecodable nested broken. split; [|split].
  - apply (proj1 (@load_history_raises_exactly_what_escapes json.codec undecodable)).
    apply escapes_undecodable. vm_compute. reflexivity.
  - apply (proj1 (@load_history_raises_exactly_what_escapes demo2.bounded nested)).
    apply (@escapes_decoder demo2.bounded _ _ demo2.brackets demo2.too_deep);
      vm_compute; reflexivity.
  - apply (proj2 (proj2 (@load_history_raises_exactly_what_escapes json.codec broken))).
    apply (@history_invalid_json json.codec _ _ "{oops" json.invalid);
      vm_compute; reflexivity.
Defined.

Lemma get_last_watched_needs_a_mapping_witness :
  let m := demo.machine (PList [PInt 1; PInt 2]) in
  ∃ e, get_last_watched (Some "ep1.mp4") m = (Raise e, m)
       ∧ exn_cls e = AttributeError.
Proof.
  intros m.
  destruct (get_last_watched_needs_a_mapping m "ep1.mp4") as [Hraise _];
    [discriminate|reflexivity|exact Hraise].
Defined.


Lemma save_then_load_round_trip_witness :
  let m := demo.machine demo.two_entries in
  ∃ m',
    @save_history json.codec m = (Return tt, m')
    ∧ @load_history json.codec m' = (Return demo.two_entries, m').
Proof.
  intros m.
  destruct (@save_then_load_round_trip json.codec m) as (m' & Hsave & _ & Hload);
    [vm_compute; reflexivity ..|].
  exists m'. split; assumption.
Defined.


Lemma failed_open_leaves_disk_behind_witness :
  let m := demo2.started demo2.read_only in
  ∃ m',
    @track_video json.codec "ep1.mp4" PNone (PInt 0) m = (Return tt, m')
    ∧ history (self m') =
        PDict [("ep1.mp4",
                watch_record (PStr "2024-01-01T12:00:00") (PInt 0) "/videos/ep1.mp4")]
    ∧ files (os m') = demo.folder
    ∧ last (trace (os m'))
      = Some (Print "Error saving tracking file: [Errno 13] Permission denied").
Proof.
  intros m.
  destruct (@failed_open_leaves_disk_behind json.codec m "ep1.mp4" PNone (PInt 0))
    as (m' & msg & Hrun & Hhist & Hfiles & Hlast & _);
    [vm_compute; reflexivity ..|].
  exists m'. split; [exact Hrun|]. split; [exact Hhist|]. split; [exact Hfiles|].
  rewrite Hlast. vm_compute in Hrun. injection Hrun as <-.
  vm_compute in Hlast. injection Hlast as <-. reflexivity.
Defined.

Lemma tracked_history_survives_restart_witness :
  let m := demo.machine demo.two_entries in
  ∃ m',
    @track_video json.codec "ep2.MKV" (PStr "2024-02-02T20:15:00") (PInt 80) m
      = (Return tt, m')
    ∧ @__init__ json.codec "/videos/season2/.." (os m') = (Return (self m'), os m').
Proof.
  intros m.
  destruct (@tracked_history_survives_restart json.codec m "ep2.MKV"
              (PStr "2024-02-02T20:15:00") (PInt 80) "/videos/season2/..")
    as (m' & Hrun & _ & Hinit); [vm_compute; reflexivity ..|].
  exists m'. split; assumption.
Defined.

Lemma play_video_propagates_interrupt_witness :
  let m := mkMachine (demo.host "Linux" demo.interrupted demo.folder)
             (demo.tracker demo.two_entries) in
  ∃ m',
    @play_video json.codec "ep1.mp4" m = (Raise (mkExn KeyboardInterrupt ""), m')
    ∧ self m' = self m
    ∧ trace (os m') = [Run ["xdg-open"; "/videos/ep1.mp4"]].
Proof.
  intros m.
  destruct (@play_video_propagates_interrupt json.codec m "ep1.mp4"
              (Run ["xdg-open"; "/videos/ep1.mp4"]) (mkExn KeyboardInterrupt ""))
    as (m' & Hrun & Hself & _ & Htrace); [reflexivity ..|].
  exists m'. split; [exact Hrun|]. split; [exact Hself|exact Htrace].
Defined.

Lemma play_video_tracks_the_launched_path_witness :
  let m := mkMachine (demo.host "Darwin" demo.player_fails demo.folder)
             (demo.tracker demo.two_entries) in
  ∃ m',
    @play_video json.codec "season2/ep3.mp4" m = (Return tt, m')
    ∧ history (self m') =
        PDict [("ep3.mp4",
                watch_record (PStr "2024-01-01T12:00:00") (PInt 0)
                  "/videos/season2/ep3.mp4")]
    ∧ Run ["open"; "/videos/season2/ep3.mp4"] ∈ trace (os m').
Proof.
  intros m.
  destruct (@play_video_tracks_the_launched_path json.codec m "season2/ep3.mp4")
    as (m' & Hrun & _ & Hhist & Hlaunched).
  - reflexivity.
  - intros ev e _ [= <-]. reflexivity.
  - vm_compute. reflexivity.
  - exists m'. split; [exact Hrun|]. split; [exact Hhist|].
    apply Hlaunched. reflexivity.
Defined.

Lemma init_anchors_the_tracker_witness :
  let w := demo.world demo.folder in
  posixpath.isabs (cwd w) = true
  ∧ @__init__ json.codec "../../videos/./season2" w
    = (Return (mkVideoTracker "/videos/season2" "/videos/season2/.tracker.json"
                 (PDict [])), w).
Proof.
  intros w. split; [reflexivity|].
  destruct (@init_anchors_the_tracker json.codec "../../videos/./season2" w)
    as (_ & _ & _ & _ & _ & Hempty); [reflexivity|].
  apply Hempty. vm_compute. reflexivity.
Defined.

Lemma listed_video_can_be_tracked_witness :
  let m := demo.machine demo.two_entries in
  let m' := snd (@track_video json.codec "ep2.MKV" PNone (PInt 0) m) in
  @list_videos unicode.sample m = (Return ["ep1.mp4"; "ep2.MKV"], m)
  ∧ exists_on_disk (os m) "/videos/ep2.MKV" = true
  ∧ history (self m')
    = PDict [("ep2.MKV",
              watch_record (PStr "2024-01-01T12:00:00") (PInt 0) "/videos/ep2.MKV")]
  ∧ get_last_watched (Some "ep2.MKV") m'
    = (Return (watch_record (PStr "2024-01-01T12:00:00") (PInt 0) "/videos/ep2.MKV"),
       m').
Proof.
  intros m m'. split; [vm_compute; reflexivity|]. split; [vm_compute; reflexivity|].
  apply (@listed_video_can_be_tracked json.codec unicode.sample m
           ["ep1.mp4"; "ep2.MKV"] "ep2.MKV" PNone (PInt 0)).
  - discriminate.
  - vm_compute. reflexivity.
  - apply list_elem_of_In. simpl. auto.
  - vm_compute. reflexivity.
Defined.

Lemma list_videos_by_suffix_witness :
  let m := mkMachine (demo.world demo2.crowded) (demo.tracker (PDict [])) in
  @list_videos unicode.sample m = (Return ["ep1.mp4"; "ep2.MKV"; "b.Avi"], m)
  ∧ (∀ name,
       is_ascii name = true →
       name ∈ ["ep1.mp4"; "ep2.MKV"; "b.Avi"] ↔
       name ∈ dir_listing (os m) "/videos"
       ∧ ∃ stem ext e,
           name = stem +:+ ext ∧ all_dots stem = false
           ∧ e ∈ allowed_extensions ∧ caseless_eqb ext e = true).
Proof.
  intros m.
  assert (Hlist : @list_videos unicode.sample m
                  = (Return ["ep1.mp4"; "ep2.MKV"; "b.Avi"], m))
    by (vm_compute; reflexivity).
  split; [exact Hlist|].
  exact (@list_videos_by_suffix unicode.sample m _ sample_lowers_ascii Hlist).
Defined.

Lemma main_without_selection_witness :
  let w := demo.world demo.folder in
  let quit := @main json.codec unicode.sample builtins.sample ("/videos" :: demo2.typos ++ ["Q"; "1"]) w in
  let starved := @main json.codec unicode.sample builtins.sample ("/videos" :: demo2.typos) w in
  let output :=
    [Print "Contents:"; Print "1. ep1.mp4"; Print "2. ep2.MKV";
     Print "Please enter a valid number or 'q'.";
     Print "Invalid selection. Please try again.";
     Print "Invalid selection. Please try again.";
     Print "Please enter a valid number or 'q'."] in
  (status quit = Done ["1"] ∧ files (world quit) = demo.folder
   ∧ trace (world quit) = output)
  ∧ (status starved = Failed EOFError ∧ files (world starved) = demo.folder
     ∧ trace (world starved) = output).
Proof.
  intros w quit starved output.
  destruct (@main_without_selection json.codec unicode.sample builtins.sample "/videos" w
              (demo.tracker (PDict [])) [] ["ep1.mp4"; "ep2.MKV"] demo2.typos)
    as (_ & Hquit & Hstarved).
  - repeat split; vm_compute; reflexivity.
  - vm_compute. reflexivity.
  - unfold quit, starved. split.
    + destruct (Hquit "Q" ["1"] eq_refl) as (Hstatus & _ & Hfiles & Htrace & _).
      split; [exact Hstatus|]. split; [exact Hfiles|]. rewrite Htrace.
      vm_compute. reflexivity.
    + destruct Hstarved as (Hstatus & _ & Hfiles & Htrace & _).
      split; [exact Hstatus|]. split; [exact Hfiles|]. rewrite Htrace.
      vm_compute. reflexivity.
Defined.

Lemma main_plays_the_selection_witness :
  let w := demo.world demo.folder in
  let e := @main json.codec unicode.sample builtins.sample ("/videos" :: demo2.typos ++ ["2"; "1"]) w in
  status e = Done ["1"]
  ∧ tracker e
    = Some (demo.tracker
              (PDict [("ep2.MKV",
                       watch_record (PStr "2024-01-01T12:00:00") (PInt 0)
                         "/videos/ep2.MKV")]))
  ∧ launches (trace (world e)) = [Run ["xdg-open"; "/videos/ep2.MKV"]].
Proof.
  intros w e.
  destruct (@main_plays_the_selection json.codec unicode.sample builtins.sample "/videos" w
              (demo.tracker (PDict [])) [] ["ep1.mp4"; "ep2.MKV"] demo2.typos
              "2" 2 ["1"])
    as (_ & Hstatus & Htracker & Hlaunches & _).
  - repeat split; vm_compute; reflexivity.
  - vm_compute. reflexivity.
  - discriminate.
  - reflexivity.
  - simpl. lia.
  - vm_compute. reflexivity.
  - intros ev x _ Hl. discriminate Hl.
  - split; [exact Hstatus|]. split; [exact Htracker|]. exact Hlaunches.
Defined.

Lemma main_crashes_on_a_history_that_is_no_mapping_witness :
  let w := demo.world (<["/videos/.tracker.json" := File true (Text "[1]")]> demo.folder) in
  let e := @main json.codec unicode.sample builtins.sample ["/videos"; "1"] w in
  (∃ x, status e = Failed (Uncaught x) ∧ exn_cls x = AttributeError)
  ∧ trace (world e) = [Print "Contents:"].
Proof.
  intros w e.
  destruct (@main_crashes_on_a_history_that_is_no_mapping json.codec unicode.sample
              builtins.sample
              "/videos" w (demo.tracker (PList [PInt 1])) ["ep1.mp4"; "ep2.MKV"] ["1"])
    as (Hcrash & Htrace & _).
  - vm_compute. reflexivity.
  - reflexivity.
  - vm_compute. reflexivity.
  - discriminate.
  - split; [exact Hcrash|exact Htrace].
Defined.

Lemma main_needs_a_directory_witness :
  let w := demo.world demo.folder in
  let e := @main json.codec unicode.sample builtins.sample ["/nowhere"; "1"] w in
  files w !! "/nowhere" = None
  ∧ (∃ x, status e = Failed (Uncaught x) ∧ isinstance x OSError = true)
  ∧ tracker e
    = Some (mkVideoTracker "/nowhere" "/nowhere/.tracker.json" (PDict []))
  ∧ trace (world e) = [Print "Contents:"].
Proof.
  intros w e. split; [vm_compute; reflexivity|].
  destruct (@main_needs_a_directory json.codec unicode.sample builtins.sample
              "/nowhere" w ["1"])
    as (_ & Hcrash & Htracker & Htrace & _).
  - vm_compute. reflexivity.
  - vm_compute. discriminate.
  - intros name Habs Hex. exfalso.
    change (posixpath.abspath (cwd w) "/nowhere") with "/nowhere" in Hex.
    unfold exists_on_disk in Hex.
    destruct (files w !! posixpath.join "/nowhere" name) as [n|] eqn:Hn;
      [|discriminate].
    unfold posixpath.join in Hn. unfold posixpath.isabs in Habs. rewrite Habs in Hn.
    change (files w) with demo.folder in Hn. unfold demo.folder in Hn.
    apply elem_of_list_to_map_2 in Hn.
    rewrite !elem_of_cons, elem_of_nil in Hn.
    destruct Hn as [Hn|[Hn|[Hn|[Hn|[Hn|[Hn|[]]]]]]];
      injection Hn as Hpath _; vm_compute in Hpath; discriminate Hpath.
  - split; [exact Hcrash|]. split; [exact Htracker|exact Htrace].
Defined.

Lemma main_stops_at_an_undecodable_history_witness :
  let w := demo.world (<["/videos/.tracker.json" := File true Garbled]> demo.folder) in
  let e := @main json.codec unicode.sample builtins.sample ["/videos"; "1"] w in
  (∃ x, status e = Failed (Uncaught x) ∧ exn_cls x = UnicodeDecodeError)
  ∧ world e = w.
Proof.
  intros w e.
  destruct (@main_stops_at_an_undecodable_history json.codec unicode.sample builtins.sample
              "/videos" w ["1"])
    as (Hcrash & _ & Hworld & _); [vm_compute; reflexivity|].
  split; [exact Hcrash|exact Hworld].
Defined.
